(** * pyJoules: the energy trace of [energy_meter.py]

    A shallow embedding of [EnergyState], [EnergyMeter] and [SampleIterator].
    Python objects live in an explicit store: every [EnergyState] is a cell of
    a heap addressed by its allocation index, so that [_first_state],
    [_last_state] and [next_state] are references that may alias, as in the
    source.  Exceptions are values of [Result]; every method is a function
    from the store to an outcome and the store it leaves behind. *)

From stdpp Require Import base option list strings gmap.

(** ** Exceptions and outcomes *)

(** The five [PyJoulesException] subclasses of the module, and the builtin
    exceptions its statements can raise.  [InvalidReference] is not a Python
    outcome: it is what the model answers when an address is not allocated,
    which no state built by the methods below ever contains. *)
Inductive Exception : Type :=
  | NoNextStateException
  | StateIsNotFinalError
  | EnergyMeterNotStartedError
  | EnergyMeterNotStoppedError
  | SampleNotFoundError
  | TypeError
  | AttributeError
  | StopIteration
  | InvalidReference.

Inductive Result (A : Type) : Type :=
  | Ok (a : A)
  | Raise (e : Exception).
Arguments Ok {A} a.
Arguments Raise {A} e.

(** The tag written by [stop()]. *)
Definition stop_tag : string := "__stop__".

(** ** The platform

    [Float] stands for Python's float with its subtraction [fsub]; nothing
    below depends on how floats round.  [Domain] is [EnergyDomain] with its
    [str()], and [Device] is [EnergyDevice]: both classes are declared in
    [energy_device.py], which the module only imports.

    Every call that leaves the module ([time.perf_counter],
    [device.get_energy], [device.get_configured_domains]) is answered by an
    oracle indexed by the number of such calls made so far, so that the clock
    moves and a device may answer differently each time it is asked. *)
Class Platform : Type := {
  Float : Type;
  fsub : Float → Float → Float;
  Domain : Type;
  str : Domain → string;
  Device : Type;
  perf_counter : nat → Float;
  get_energy : Device → nat → list Float;
  get_configured_domains : Device → nat → list Domain
}.

Section Model.

Context {P : Platform}.

(** ** Data *)

(** [EnergyState.__init__] sets [next_state] to [None]. *)
Record EnergyState : Type := mkEnergyState {
  timestamp : Float;
  tag : string;
  values : list (list Float);
  next_state : option nat
}.

(** Modelled from the spec: [EnergySample] is imported from the package's
    [__init__], which is not among the sources; section 3 gives its fields:
    timestamp, tag, duration and the mapping from domain key to delta. *)
Record EnergySample : Type := mkEnergySample {
  sample_timestamp : Float;
  sample_tag : string;
  duration : Float;
  energy : gmap string Float
}.

Record EnergyMeter : Type := mkEnergyMeter {
  devices : list Device;
  default_tag : string;
  _last_state : option nat;
  _first_state : option nat
}.

(** [SampleIterator.energy_meter] is the one meter of the store. *)
Record SampleIterator : Type := mkSampleIterator {
  _current_state : option nat
}.

Record World : Type := mkWorld {
  ticks : nat;
  heap : list EnergyState;
  meter : EnergyMeter
}.

(** ** The monad of methods: store passing with exceptions.  The store that
    comes with [Raise] holds the writes made before the exception. *)
Definition M (A : Type) : Type := World → Result A * World.

Definition ret {A} (a : A) : M A := λ w, (Ok a, w).
Definition raise {A} (e : Exception) : M A := λ w, (Raise e, w).
Definition bind {A B} (c : M A) (k : A → M B) : M B := λ w,
  match c w with
  | (Ok a, w') => k a w'
  | (Raise e, w') => (Raise e, w')
  end.

Notation "'let*' x ':=' c 'in' k" := (bind c (λ x, k))
  (at level 10, x pattern, c at level 100, k at level 200).
Notation "c ';;' k" := (bind c (λ _, k))
  (at level 100, k at level 200, right associativity).

(** [[f(x) for x in l]] *)
Fixpoint comprehension {A B} (f : A → M B) (l : list A) : M (list B) :=
  match l with
  | [] => ret []
  | x :: l' =>
      let* y := f x in
      let* ys := comprehension f l' in
      ret (y :: ys)
  end.

(** *** Primitive accesses *)

Definition external {A} (oracle : nat → A) : M A := λ w,
  (Ok (oracle (ticks w)),
   {| ticks := S (ticks w); heap := heap w; meter := meter w |}).

Definition self_meter : M EnergyMeter := λ w, (Ok (meter w), w).

Definition set_meter (m : EnergyMeter) : M unit := λ w,
  (Ok tt, {| ticks := ticks w; heap := heap w; meter := m |}).

(** Attribute access on a reference that may be [None]. *)
Definition deref (r : option nat) : M nat :=
  match r with
  | Some a => ret a
  | None => raise AttributeError
  end.

Definition load (a : nat) : M EnergyState := λ w,
  match heap w !! a with
  | Some s => (Ok s, w)
  | None => (Raise InvalidReference, w)
  end.

Definition store (a : nat) (s : EnergyState) : M unit := λ w,
  (Ok tt, {| ticks := ticks w; heap := <[a := s]> (heap w); meter := meter w |}).

(** A new object gets the next free address. *)
Definition EnergyState_init (timestamp : Float) (tag : string)
    (values : list (list Float)) : M nat := λ w,
  (Ok (length (heap w)),
   {| ticks := ticks w;
      heap := heap w ++ [mkEnergyState timestamp tag values None];
      meter := meter w |}).

(** ** [EnergyState] *)

Definition is_last (self : nat) : M bool :=
  let* s := load self in
  ret (bool_decide (next_state s = None)).

Definition compute_duration (self : nat) : M Float :=
  let* s := load self in
  match next_state s with
  | None => raise NoNextStateException
  | Some n =>
      let* s' := load n in
      ret (fsub (timestamp s') (timestamp s))
  end.

(** [energy += [v_next - v_current for ... in zip(next_device_values,
    current_device_values)]] over [zip(self.next_state.values, self.values)]. *)
Definition energy_deltas (next_values current_values : list (list Float))
    : list Float :=
  foldl (λ energy p, energy ++ zip_with fsub p.1 p.2) []
        (zip next_values current_values).

(** [values_dict[str(key)] = value] over [zip(energy, domains)]. *)
Definition values_dict (energy : list Float) (domains : list Domain)
    : gmap string Float :=
  foldl (λ d p, <[str p.2 := p.1]> d) ∅ (zip energy domains).

Definition compute_energy (self : nat) (domains : list Domain)
    : M (gmap string Float) :=
  let* s := load self in
  match next_state s with
  | None => raise NoNextStateException
  | Some n =>
      let* s' := load n in
      ret (values_dict (energy_deltas (values s') (values s)) domains)
  end.

Definition add_next_state (self : nat) (state : nat) : M unit :=
  let* s := load self in
  match next_state s with
  | Some _ => raise StateIsNotFinalError
  | None =>
      store self (mkEnergyState (timestamp s) (tag s) (values s) (Some state))
  end.

(** ** [EnergyMeter] *)

Definition EnergyMeter_init (devices : list Device) (default_tag : string)
    : EnergyMeter :=
  mkEnergyMeter devices default_tag None None.

Definition _measure_new_state (tag : option string) : M nat :=
  let* self := self_meter in
  let* timestamp := external perf_counter in
  let* values := comprehension (λ device, external (get_energy device))
                               (devices self) in
  EnergyState_init timestamp (default (default_tag self) tag) values.

Definition start (tag : option string) : M unit :=
  let* new_state := _measure_new_state tag in
  let* self := self_meter in
  set_meter (mkEnergyMeter (devices self) (default_tag self)
                           (Some new_state) (Some new_state)).

Definition record (tag : option string) : M unit :=
  let* self := self_meter in
  match _first_state self with
  | None => raise EnergyMeterNotStartedError
  | Some _ =>
      let* new_state := _measure_new_state tag in
      let* last := deref (_last_state self) in
      add_next_state last new_state ;;
      set_meter (mkEnergyMeter (devices self) (default_tag self)
                               (Some new_state) (_first_state self))
  end.

Definition stop : M unit :=
  let* self := self_meter in
  match _first_state self with
  | None => raise EnergyMeterNotStartedError
  | Some _ =>
      let* new_state := _measure_new_state (Some stop_tag) in
      let* last := deref (_last_state self) in
      add_next_state last new_state ;;
      set_meter (mkEnergyMeter (devices self) (default_tag self)
                               (Some new_state) (_first_state self))
  end.

(** ** [SampleIterator] *)

Definition SampleIterator_init : M SampleIterator :=
  let* energy_meter := self_meter in
  ret (mkSampleIterator (_first_state energy_meter)).

(** [reduce(operator.add, lists)] has no initial value: on an empty sequence
    it raises [TypeError]. *)
Definition reduce_add {A} (lists : list (list A)) : M (list A) :=
  match lists with
  | [] => raise TypeError
  | l :: lists' => ret (foldl app l lists')
  end.

(** Returns the sample together with the iterator as [__next__] leaves it. *)
Definition __next__ (self : SampleIterator) : M (EnergySample * SampleIterator) :=
  let* current := deref (_current_state self) in
  let* s := load current in
  match next_state s with
  | None => raise StopIteration
  | Some _ =>
      let* energy_meter := self_meter in
      let* lists := comprehension
                      (λ device, external (get_configured_domains device))
                      (devices energy_meter) in
      let* domains := reduce_add lists in
      let* d := compute_duration current in
      let* e := compute_energy current domains in
      ret (mkEnergySample (timestamp s) (tag s) d e,
           mkSampleIterator (next_state s))
  end.

(** The two guards shared by [get_sample] and [__iter__]. *)
Definition __iter__ : M SampleIterator :=
  let* self := self_meter in
  match _first_state self with
  | None => raise EnergyMeterNotStartedError
  | Some _ =>
      let* last := deref (_last_state self) in
      let* s := load last in
      if bool_decide (tag s = stop_tag) then SampleIterator_init
      else raise EnergyMeterNotStoppedError
  end.

(** A loop may not end on a cyclic chain; the loops take fuel and answer
    [None] when it runs out. *)

(** [for sample in it: if sample.tag == tag: return sample] followed by
    [raise SampleNotFoundError()]. *)
Fixpoint find_sample (fuel : nat) (it : SampleIterator) (wanted : string)
    (w : World) : option (Result EnergySample * World) :=
  match fuel with
  | 0 => None
  | S fuel' =>
      match __next__ it w with
      | (Ok (sample, it'), w') =>
          if bool_decide (sample_tag sample = wanted) then Some (Ok sample, w')
          else find_sample fuel' it' wanted w'
      | (Raise StopIteration, w') => Some (Raise SampleNotFoundError, w')
      | (Raise e, w') => Some (Raise e, w')
      end
  end.

Definition get_sample (fuel : nat) (wanted : string) (w : World)
    : option (Result EnergySample * World) :=
  match _first_state (meter w) with
  | None => Some (Raise EnergyMeterNotStartedError, w)
  | Some _ =>
      match (let* last := deref (_last_state (meter w)) in load last) w with
      | (Raise e, w') => Some (Raise e, w')
      | (Ok s, w') =>
          if bool_decide (tag s = stop_tag) then
            match __iter__ w' with
            | (Ok it, w'') => find_sample fuel it wanted w''
            | (Raise e, w'') => Some (Raise e, w'')
            end
          else Some (Raise EnergyMeterNotStoppedError, w')
      end
  end.

(** [list(it)]: the samples an iterator yields until [StopIteration], for an
    iterator whose [__next__] is [next]. *)
Fixpoint drain (next : SampleIterator → M (EnergySample * SampleIterator))
    (fuel : nat) (it : SampleIterator) (w : World)
    : option (Result (list EnergySample) * World) :=
  match fuel with
  | 0 => None
  | S fuel' =>
      match next it w with
      | (Ok (sample, it'), w') =>
          match drain next fuel' it' w' with
          | Some (Ok samples, w'') => Some (Ok (sample :: samples), w'')
          | other => other
          end
      | (Raise StopIteration, w') => Some (Ok [], w')
      | (Raise e, w') => Some (Raise e, w')
      end
  end.

(** [list(meter)] *)
Definition iterate (fuel : nat) (w : World)
    : option (Result (list EnergySample) * World) :=
  match __iter__ w with
  | (Ok it, w') => drain __next__ fuel it w'
  | (Raise e, w') => Some (Raise e, w')
  end.

(** ** Sessions: [start(first)], then [record(tag)] for each tag, then
    [stop()]. *)
Fixpoint records (tags : list (option string)) : M unit :=
  match tags with
  | [] => ret tt
  | t :: tags' => record t ;; records tags'
  end.

Definition session (first : option string) (tags : list (option string))
    : M unit :=
  start first ;; records tags ;; stop.

(** ** The producer of section 4.3, in the spec's words

    "Domain keys used for compute_energy are computed once by concatenating,
    in device order, each device's configured domain list": the keys are
    asked for when the producer is made and every step uses that list. *)
Definition once_domain_keys : M (list Domain) :=
  let* energy_meter := self_meter in
  let* lists := comprehension
                  (λ device, external (get_configured_domains device))
                  (devices energy_meter) in
  ret (concat lists).

Definition once_next (domains : list Domain) (self : SampleIterator)
    : M (EnergySample * SampleIterator) :=
  let* current := deref (_current_state self) in
  let* s := load current in
  match next_state s with
  | None => raise StopIteration
  | Some _ =>
      let* d := compute_duration current in
      let* e := compute_energy current domains in
      ret (mkEnergySample (timestamp s) (tag s) d e,
           mkSampleIterator (next_state s))
  end.

Definition once_iterate (fuel : nat) (w : World)
    : option (Result (list EnergySample) * World) :=
  match (let* it := __iter__ in
         let* domains := once_domain_keys in
         ret (it, domains)) w with
  | (Ok (it, domains), w') => drain (once_next domains) fuel it w'
  | (Raise e, w') => Some (Raise e, w')
  end.

(** ** Vocabulary of the statements *)

(** The answers of the devices, asked in order from call number [t] on. *)
Fixpoint answers {A} (oracle : Device → nat → A) (ds : list Device) (t : nat)
    : list A :=
  match ds with
  | [] => []
  | d :: ds' => oracle d t :: answers oracle ds' (S t)
  end.

(** The store after [n] more calls to the outside. *)
Definition advance (n : nat) (w : World) : World :=
  mkWorld (n + ticks w) (heap w) (meter w).

(** The flattened list of domain keys, as the devices give it at call [t]. *)
Definition domain_keys (ds : list Device) (t : nat) : list Domain :=
  concat (answers get_configured_domains ds t).

(** The per-device differences, successor minus current, flattened in device
    order. *)
Definition flat_deltas (s s' : EnergyState) : list Float :=
  concat (zip_with (zip_with fsub) (values s') (values s)).

(** The sample of the interval from [s] to its successor [s'], under the
    keys [domains]. *)
Definition sample_between (s s' : EnergyState) (domains : list Domain)
    : EnergySample :=
  mkEnergySample (timestamp s) (tag s) (fsub (timestamp s') (timestamp s))
    (values_dict (energy_deltas (values s') (values s)) domains).

(** The state measured by [_measure_new_state(tag)] in store [w]. *)
Definition measured (tag : option string) (w : World) : EnergyState :=
  mkEnergyState (perf_counter (ticks w))
                (default (default_tag (meter w)) tag)
                (answers get_energy (devices (meter w)) (S (ticks w)))
                None.

(** Section 3: the controller is NotStarted when [first_state] is empty, and
    Stopped when the tag of [last_state] is the sentinel. *)
Definition is_stopped (w : World) : bool :=
  match _first_state (meter w), _last_state (meter w) with
  | Some _, Some last =>
      match heap w !! last with
      | Some s => bool_decide (tag s = stop_tag)
      | None => false
      end
  | _, _ => false
  end.

(** Section 6: a device's configured domain list is stable across calls. *)
Definition stable_domains : Prop :=
  ∀ (d : Device) (t t' : nat),
    get_configured_domains d t = get_configured_domains d t'.

(** [chain h a l]: following [next_state] from address [a] visits exactly the
    addresses [l], the last of which has no successor. *)
Inductive chain (h : list EnergyState) : nat → list nat → Prop :=
  | chain_last a s :
      h !! a = Some s → next_state s = None → chain h a [a]
  | chain_next a s b l :
      h !! a = Some s → next_state s = Some b → chain h b l →
      chain h a (a :: l).

(** ** Vocabulary of the properties of whole traces *)

(** [start(first)] followed by [record(tag)] for each tag: a trace that is
    still open.  A session is an open trace closed by [stop()]. *)
Definition opened (first : option string) (tags : list (option string))
    : M unit :=
  start first ;; records tags.

(** The states that successive [_measure_new_state] calls create for the
    tags [tags], the first call being made at call number [t]: each reads the
    clock once, then every device once. *)
Fixpoint measurements (ds : list Device) (dt : string)
    (tags : list (option string)) (t : nat) : list EnergyState :=
  match tags with
  | [] => []
  | tg :: tags' =>
      mkEnergyState (perf_counter t) (default dt tg)
                    (answers get_energy ds (S t)) None
      :: measurements ds dt tags' (S (length ds) + t)
  end.

(** The samples of the intervals between consecutive states of [ms], the
    keys of the first being asked at call number [t], those of the next one
    round of questions later. *)
Fixpoint samples_of (ds : list Device) (t : nat) (ms : list EnergyState)
    : list EnergySample :=
  match ms with
  | [] => []
  | m :: ms' =>
      match ms' with
      | [] => []
      | m' :: _ =>
          sample_between m m' (domain_keys ds t)
          :: samples_of ds (length ds + t) ms'
      end
  end.

(** [stored h a ms]: the heap holds, from address [a] on, states with the
    timestamps, tags and values of [ms], each pointing to the next and the
    last to nothing. *)
Definition stored (h : list EnergyState) (a : nat) (ms : list EnergyState)
    : Prop :=
  ∀ i m, ms !! i = Some m →
    ∃ s, h !! (a + i) = Some s
       ∧ timestamp s = timestamp m ∧ tag s = tag m ∧ values s = values m
       ∧ next_state s = (if decide (S i < length ms) then Some (a + S i)
                         else None).

(** [trace_is w f ms]: the controller of [w] is started, its trace begins at
    address [f], fills the end of the heap and holds the states [ms]. *)
Definition trace_is (w : World) (f : nat) (ms : list EnergyState) : Prop :=
  ms ≠ []
  ∧ stored (heap w) f ms
  ∧ length (heap w) = f + length ms
  ∧ _first_state (meter w) = Some f
  ∧ _last_state (meter w) = Some (f + length ms - 1).

(** The stores a program can reach from a new [EnergyMeter(devices,
    default_tag)] by calling its methods, whatever they answer. *)
Inductive reachable : World → Prop :=
  | reach_new ds dt t :
      reachable (mkWorld t [] (EnergyMeter_init ds dt))
  | reach_start tg w :
      reachable w → reachable (start tg w).2
  | reach_record tg w :
      reachable w → reachable (record tg w).2
  | reach_stop w :
      reachable w → reachable (stop w).2
  | reach_get_sample fuel wanted w r w' :
      reachable w → get_sample fuel wanted w = Some (r, w') → reachable w'
  | reach_iterate fuel w r w' :
      reachable w → iterate fuel w = Some (r, w') → reachable w'.

(** Section 6: [get_energy] gives one reading per configured domain. *)
Definition one_reading_per_domain : Prop :=
  ∀ (d : Device) (t t' : nat),
    length (get_energy d t) = length (get_configured_domains d t').

End Model.

(** ** Concrete platforms

    Floats are read as integers, devices are numbered, a domain key is its
    own string.  The [n]-th call to the outside finds the clock at [n] and
    the counter of device [d] at [(d + 1) * n]. *)
Module Scenario.

#[export] Instance lab : Platform := {|
  Float := Z;
  fsub := Z.sub;
  Domain := string;
  str := λ domain, domain;
  Device := nat;
  perf_counter := λ t, Z.of_nat t;
  get_energy := λ d t, [Z.of_nat ((d + 1) * t)];
  get_configured_domains := λ d t, ["D"]
|}.

(** The same devices, reconfigured once: the domain is ["old"] during the
    first seven calls and ["new"] from then on. *)
Definition reconfigured : Platform := {|
  Float := Z;
  fsub := Z.sub;
  Domain := string;
  str := λ domain, domain;
  Device := nat;
  perf_counter := λ t, Z.of_nat t;
  get_energy := λ d t, [Z.of_nat ((d + 1) * t)];
  get_configured_domains := λ d t, [if t <? 7 then "old" else "new"]
|}.

(** A meter fresh from [EnergyMeter(devices)]. *)
Definition fresh {P : Platform} (devices : list Device) : World :=
  mkWorld 0 [] (EnergyMeter_init devices "").

(** The store a method leaves. *)
Definition after {P : Platform} {A} (c : M A) (w : World) : World := (c w).2.

(** The samples and the store of a finished loop. *)
Definition yielded {P : Platform}
    (o : option (Result (list EnergySample) * World)) : list EnergySample :=
  match o with
  | Some (Ok samples, _) => samples
  | _ => []
  end.

Definition left_by {P : Platform} {A} (o : option (Result A * World))
    (w : World) : World :=
  match o with
  | Some (_, w') => w'
  | None => w
  end.

(** A meter with one device, not started. *)
Definition not_started : World (P := lab) := fresh [0].

(** [start("a")], [record("b")], [stop()] on one device. *)
Definition trace_ab : World (P := lab) :=
  Eval vm_compute in after (session (Some "a") [Some "b"]) not_started.

(** [start()], [stop()] on two devices, both with the domain ["D"]. *)
Definition two_devices : World (P := lab) := fresh [0; 1].
Definition trace_two_devices : World (P := lab) :=
  Eval vm_compute in after (session None []) two_devices.

(** [start()], [stop()] on a meter without devices. *)
Definition no_device : World (P := lab) := fresh [].
Definition trace_no_device : World (P := lab) :=
  Eval vm_compute in after (session None []) no_device.

(** [start()] then [record("__stop__")]: no [stop()] was called. *)
Definition started : World (P := lab) :=
  Eval vm_compute in after (start None) not_started.
Definition recorded_stop_tag : World (P := lab) :=
  Eval vm_compute in after (record (Some "__stop__")) started.

(** [record("x")] on the Stopped [trace_ab]. *)
Definition recorded_after_stop : World (P := lab) :=
  Eval vm_compute in after (record (Some "x")) trace_ab.

(** The samples of [trace_ab] and of [trace_two_devices]. *)
Definition sample_a : EnergySample (P := lab) :=
  mkEnergySample 0%Z "a" 2%Z {["D" := 2%Z]}.
Definition sample_b : EnergySample (P := lab) :=
  mkEnergySample 2%Z "b" 2%Z {["D" := 2%Z]}.
Definition sample_two_devices : EnergySample (P := lab) :=
  mkEnergySample 0%Z "" 3%Z {["D" := 6%Z]}.

(** The steps to [trace_ab]. *)
Definition started_a : World (P := lab) :=
  Eval vm_compute in after (start (Some "a")) not_started.
Definition recorded_ab : World (P := lab) :=
  Eval vm_compute in after (record (Some "b")) started_a.

(** [stop()] once more, after [trace_ab] was iterated. *)
Definition stopped_again : World (P := lab) :=
  Eval vm_compute in after stop (advance 2 trace_ab).
Definition sample_stop : EnergySample (P := lab) :=
  mkEnergySample 4%Z "__stop__" 4%Z {["D" := 4%Z]}.

(** [trace_ab] on the device that is reconfigured during the iteration. *)
Definition trace_reconfigured : World (P := reconfigured) :=
  Eval vm_compute in
    after (P := reconfigured)
      (session (P := reconfigured) (Some "a") [Some "b"])
      (fresh (P := reconfigured) [0]).

End Scenario.

(** * Properties *)

Ltac run := unfold bind, ret, raise, self_meter, set_meter, deref, load, store.

Section Properties.

Context {P : Platform}.

Implicit Types (w : World) (s : EnergyState) (it : SampleIterator).

(** ** The calls to the outside *)

Lemma length_answers {A} (oracle : Device → nat → A) ds t :
  length (answers oracle ds t) = length ds.
Proof. revert t; induction ds as [|d ds IH]; intros t; simpl; [done|]. by rewrite IH. Qed.

Lemma advance_0 w : advance 0 w = w.
Proof. by destruct w. Qed.

Lemma external_eq {A} (oracle : nat → A) w :
  external oracle w = (Ok (oracle (ticks w)), advance 1 w).
Proof. done. Qed.

Lemma comprehension_external {A} (oracle : Device → nat → A) ds w :
  comprehension (λ device, external (oracle device)) ds w
  = (Ok (answers oracle ds (ticks w)), advance (length ds) w).
Proof.
  revert w; induction ds as [|d ds IH]; intros w; simpl.
  - by rewrite advance_0.
  - unfold bind at 1. unfold external at 1. unfold bind at 1.
    rewrite IH. simpl. unfold ret, advance. simpl.
    do 2 f_equal. f_equal. lia.
Qed.

Lemma measure_new_state_eq tag w :
  _measure_new_state tag w
  = (Ok (length (heap w)),
     mkWorld (S (length (devices (meter w))) + ticks w)
             (heap w ++ [measured tag w]) (meter w)).
Proof.
  unfold _measure_new_state, bind, self_meter.
  rewrite external_eq, comprehension_external.
  unfold EnergyState_init, advance, measured. simpl.
  do 2 f_equal. lia.
Qed.

(** ** The pure parts of [compute_energy] and [__next__] *)

Lemma foldl_app_concat {A} (l : list A) (ls : list (list A)) :
  foldl app l ls = l ++ concat ls.
Proof.
  revert l; induction ls as [|x ls IH]; intros l; simpl.
  - by rewrite app_nil_r.
  - by rewrite IH, app_assoc.
Qed.

Lemma energy_deltas_concat (nv cv : list (list Float)) :
  energy_deltas nv cv = concat (zip_with (zip_with fsub) nv cv).
Proof.
  unfold energy_deltas.
  cut (∀ acc, foldl (λ energy p, energy ++ zip_with fsub p.1 p.2) acc (zip nv cv)
              = acc ++ concat (zip_with (zip_with fsub) nv cv)).
  { intros H. by rewrite H. }
  revert cv; induction nv as [|x nv IH]; intros [|y cv] acc; simpl;
    rewrite ?app_nil_r; try done.
  by rewrite IH, app_assoc.
Qed.

(** ** [EnergyState] *)

(** C9: with a successor, [compute_duration()] is the successor's timestamp
    minus the state's own; without one, [compute_duration()] and
    [compute_energy()] both raise [NoNextStateException], and the store is
    as before. *)
Theorem compute_duration_and_terminal_guard w a s :
  heap w !! a = Some s →
  (∀ b s', next_state s = Some b → heap w !! b = Some s' →
     compute_duration a w = (Ok (fsub (timestamp s') (timestamp s)), w))
  ∧ (next_state s = None →
     compute_duration a w = (Raise NoNextStateException, w)
     ∧ ∀ domains, compute_energy a domains w = (Raise NoNextStateException, w)).
Proof.
  intros Ha. split.
  - intros b s' Hb Hs'. unfold compute_duration. run.
    by rewrite Ha, Hb, Hs'.
  - intros Hn. split; [|intros domains];
      unfold compute_duration, compute_energy; run; by rewrite Ha, Hn.
Qed.

(** C6: on a state without successor [add_next_state] succeeds and sets the
    successor; on a state that has one, in whatever store, it raises
    [StateIsNotFinalError] and writes nothing, so the successor stays. *)
Theorem add_next_state_once w a s b :
  heap w !! a = Some s → next_state s = None →
  ∃ w', add_next_state a b w = (Ok tt, w')
      ∧ heap w' !! a
        = Some (mkEnergyState (timestamp s) (tag s) (values s) (Some b))
      ∧ (∀ c, add_next_state a c w' = (Raise StateIsNotFinalError, w'))
      ∧ ∀ w'' s'' c, heap w'' !! a = Some s'' → is_Some (next_state s'') →
          add_next_state a c w'' = (Raise StateIsNotFinalError, w'').
Proof.
  intros Ha Hn.
  assert (Hlater : ∀ w'' s'' c, heap w'' !! a = Some s'' →
            is_Some (next_state s'') →
            add_next_state a c w'' = (Raise StateIsNotFinalError, w'')).
  { intros w'' s'' c Hs [n Hsome]. unfold add_next_state. run.
    by rewrite Hs, Hsome. }
  eexists. split; [|split; [|split]].
  - unfold add_next_state. run. by rewrite Ha, Hn.
  - simpl. apply list_lookup_insert_eq. by eapply lookup_lt_Some.
  - intros c. eapply Hlater.
    + simpl. apply list_lookup_insert_eq. by eapply lookup_lt_Some.
    + by eexists.
  - exact Hlater.
Qed.

(** ** [EnergyMeter]: the guards *)

Lemma stop_is_record : stop = record (Some stop_tag).
Proof. reflexivity. Qed.

(** C7: while [_first_state] is [None], [record], [stop], [get_sample] and
    the request for an iterator (alone or followed by the loop) raise
    [EnergyMeterNotStartedError] and leave the store as it was. *)
Theorem not_started_guard w :
  _first_state (meter w) = None →
  (∀ tg, record tg w = (Raise EnergyMeterNotStartedError, w))
  ∧ stop w = (Raise EnergyMeterNotStartedError, w)
  ∧ (∀ fuel wanted,
       get_sample fuel wanted w = Some (Raise EnergyMeterNotStartedError, w))
  ∧ __iter__ w = (Raise EnergyMeterNotStartedError, w)
  ∧ ∀ fuel, iterate fuel w = Some (Raise EnergyMeterNotStartedError, w).
Proof.
  intros Hf.
  assert (Hit : __iter__ w = (Raise EnergyMeterNotStartedError, w)).
  { unfold __iter__. run. by rewrite Hf. }
  repeat split.
  - intros tg. unfold record. run. by rewrite Hf.
  - unfold stop. run. by rewrite Hf.
  - intros fuel wanted. unfold get_sample. by rewrite Hf.
  - exact Hit.
  - intros fuel. unfold iterate. by rewrite Hit.
Qed.

(** What a successful [record(tag)] has done: the new state was measured and
    allocated, the old last state [l] (which had no successor) now points to
    it, and it is the new last state. *)
Lemma record_ok tg w w' :
  record tg w = (Ok tt, w') →
  ∃ f l sl,
    _first_state (meter w) = Some f ∧ _last_state (meter w) = Some l
    ∧ (heap w ++ [measured tg w]) !! l = Some sl ∧ next_state sl = None
    ∧ w' = mkWorld (S (length (devices (meter w))) + ticks w)
             (<[l := mkEnergyState (timestamp sl) (tag sl) (values sl)
                       (Some (length (heap w)))]>
                (heap w ++ [measured tg w]))
             (mkEnergyMeter (devices (meter w)) (default_tag (meter w))
                            (Some (length (heap w))) (Some f)).
Proof.
  unfold record. unfold bind at 1. unfold self_meter at 1.
  destruct (_first_state (meter w)) as [f|] eqn:Hf; [|done].
  unfold bind at 1. rewrite measure_new_state_eq.
  unfold bind at 1. destruct (_last_state (meter w)) as [l|] eqn:Hl; [|done].
  simpl. unfold add_next_state. run. simpl.
  destruct ((heap w ++ [measured tg w]) !! l) as [sl|] eqn:Hsl; [|done].
  destruct (next_state sl) eqn:Hn; [done|]. simpl.
  intros [= <-]. by exists f, l, sl.
Qed.

(** A failed [record(tag)] leaves the meter and every allocated state as
    they were. *)
Lemma record_raise tg w e w' :
  record tg w = (Raise e, w') →
  meter w' = meter w ∧ ∀ a s, heap w !! a = Some s → heap w' !! a = Some s.
Proof.
  unfold record. unfold bind at 1. unfold self_meter at 1.
  destruct (_first_state (meter w)) as [f|] eqn:Hf.
  2:{ intros [= _ <-]. done. }
  unfold bind at 1. rewrite measure_new_state_eq.
  unfold bind at 1.
  assert (Hkeep : ∀ a s, heap w !! a = Some s →
            (heap w ++ [measured tg w]) !! a = Some s).
  { intros a s Ha. by apply lookup_app_l_Some. }
  destruct (_last_state (meter w)) as [l|] eqn:Hl.
  2:{ simpl. intros [= _ <-]. done. }
  simpl. unfold add_next_state. run. simpl.
  destruct ((heap w ++ [measured tg w]) !! l) as [sl|] eqn:Hsl.
  2:{ intros [= _ <-]. done. }
  destruct (next_state sl) eqn:Hn; [|done].
  intros [= _ <-]. done.
Qed.

(** The tag of the last state after a successful [start] or [record]. *)
Lemma start_eq tg w :
  start tg w
  = (Ok tt, mkWorld (S (length (devices (meter w))) + ticks w)
              (heap w ++ [measured tg w])
              (mkEnergyMeter (devices (meter w)) (default_tag (meter w))
                 (Some (length (heap w))) (Some (length (heap w))))).
Proof. unfold start, bind. by rewrite measure_new_state_eq. Qed.

Lemma last_tag_after tg w w' :
  start tg w = (Ok tt, w') ∨ record tg w = (Ok tt, w') →
  ∃ f l s, _first_state (meter w') = Some f ∧ _last_state (meter w') = Some l
         ∧ heap w' !! l = Some s
         ∧ tag s = default (default_tag (meter w)) tg.
Proof.
  intros [H|H].
  - rewrite start_eq in H. injection H as <-. simpl.
    exists (length (heap w)), (length (heap w)), (measured tg w).
    repeat split. by rewrite lookup_app_r, Nat.sub_diag.
  - apply record_ok in H as (f & l & sl & Hf & Hl & Hsl & Hn & ->). simpl.
    destruct (decide (l = length (heap w))) as [->|Hne].
    + exists f, (length (heap w)),
        (mkEnergyState (timestamp sl) (tag sl) (values sl)
                       (Some (length (heap w)))).
      repeat split.
      * apply list_lookup_insert_eq. rewrite length_app. simpl. lia.
      * simpl. rewrite lookup_app_r, Nat.sub_diag in Hsl by done.
        by injection Hsl as <-.
    + exists f, (length (heap w)), (measured tg w). repeat split.
      rewrite list_lookup_insert_ne by done.
      by rewrite lookup_app_r, Nat.sub_diag.
Qed.

Lemma iter_not_stopped w f l s :
  _first_state (meter w) = Some f → _last_state (meter w) = Some l →
  heap w !! l = Some s → tag s ≠ stop_tag →
  __iter__ w = (Raise EnergyMeterNotStoppedError, w)
  ∧ (∀ fuel wanted,
       get_sample fuel wanted w = Some (Raise EnergyMeterNotStoppedError, w))
  ∧ ∀ fuel, iterate fuel w = Some (Raise EnergyMeterNotStoppedError, w).
Proof.
  intros Hf Hl Hs Ht.
  assert (Hit : __iter__ w = (Raise EnergyMeterNotStoppedError, w)).
  { unfold __iter__. run. rewrite Hf, Hl. simpl. rewrite Hs.
    by rewrite bool_decide_false. }
  split; [done|]. split.
  - intros fuel wanted. unfold get_sample. run. rewrite Hf, Hl. simpl.
    rewrite Hs. by rewrite bool_decide_false.
  - intros fuel. unfold iterate. by rewrite Hit.
Qed.

(** C3 (amended): after a [start(tag)] or a successful [record(tag)] whose
    effective tag (the tag given, else the default tag) is not ["__stop__"],
    [get_sample], the request for an iterator and the iteration raise
    [EnergyMeterNotStoppedError] and leave the store as it was. *)
Theorem not_stopped_guard tg w w' :
  start tg w = (Ok tt, w') ∨ record tg w = (Ok tt, w') →
  default (default_tag (meter w)) tg ≠ stop_tag →
  __iter__ w' = (Raise EnergyMeterNotStoppedError, w')
  ∧ (∀ fuel wanted,
       get_sample fuel wanted w' = Some (Raise EnergyMeterNotStoppedError, w'))
  ∧ ∀ fuel, iterate fuel w' = Some (Raise EnergyMeterNotStoppedError, w').
Proof.
  intros Hop Htag.
  apply last_tag_after in Hop as (f & l & s & Hf & Hl & Hs & Ht).
  eapply iter_not_stopped; eauto. by rewrite Ht.
Qed.

(** ** [SampleIterator] *)

(** [__next__] case by case. *)
Lemma next_eq it w :
  __next__ it w =
  match _current_state it with
  | None => (Raise AttributeError, w)
  | Some a =>
    match heap w !! a with
    | None => (Raise InvalidReference, w)
    | Some s =>
      match next_state s with
      | None => (Raise StopIteration, w)
      | Some b =>
        match devices (meter w) with
        | [] => (Raise TypeError, w)
        | _ :: _ =>
          match heap w !! b with
          | None =>
              (Raise InvalidReference, advance (length (devices (meter w))) w)
          | Some s' =>
              (Ok (sample_between s s'
                     (domain_keys (devices (meter w)) (ticks w)),
                   mkSampleIterator (Some b)),
               advance (length (devices (meter w))) w)
          end
        end
      end
    end
  end.
Proof.
  unfold __next__. unfold bind at 1.
  destruct (_current_state it) as [a|]; [|done]. simpl.
  unfold bind at 1. unfold load at 1.
  destruct (heap w !! a) as [s|] eqn:Ha; [|done].
  destruct (next_state s) as [b|] eqn:Hb; [|done].
  unfold bind at 1. unfold self_meter at 1.
  unfold bind at 1. rewrite comprehension_external.
  destruct (devices (meter w)) as [|d ds] eqn:Hd.
  { simpl. unfold bind, raise. by rewrite advance_0. }
  unfold bind at 1. simpl answers. unfold reduce_add, ret at 1.
  unfold compute_duration, compute_energy. run. unfold advance. cbn.
  rewrite Ha. cbn. rewrite Hb. cbn.
  destruct (heap w !! b) as [s'|] eqn:Hs'; [|done]. cbn.
  rewrite Ha. cbn. rewrite Hb. cbn. rewrite Hs'. cbn.
  unfold sample_between, domain_keys. cbn.
  by rewrite foldl_app_concat.
Qed.

Lemma next_keeps it w :
  heap (__next__ it w).2 = heap w ∧ meter (__next__ it w).2 = meter w.
Proof.
  rewrite next_eq.
  repeat (match goal with |- context [match ?x with _ => _ end] =>
            destruct x end; simpl; try done).
Qed.

Lemma next_ok_inv it w x it' w' :
  __next__ it w = (Ok (x, it'), w') →
  ∃ a s b s',
    _current_state it = Some a ∧ heap w !! a = Some s
    ∧ next_state s = Some b ∧ heap w !! b = Some s'
    ∧ devices (meter w) ≠ []
    ∧ x = sample_between s s' (domain_keys (devices (meter w)) (ticks w))
    ∧ it' = mkSampleIterator (Some b)
    ∧ w' = advance (length (devices (meter w))) w.
Proof.
  rewrite next_eq.
  destruct (_current_state it) as [a|]; [|done].
  destruct (heap w !! a) as [s|] eqn:Ha; [|done].
  destruct (next_state s) as [b|] eqn:Hb; [|done].
  destruct (devices (meter w)) as [|d ds] eqn:Hd; [done|].
  destruct (heap w !! b) as [s'|] eqn:Hs'; [|done].
  intros [= <- <- <-]. by exists a, s, b, s'.
Qed.

(** ** Requesting an iterator, and the loops *)

Lemma is_stopped_tag w f l s :
  _first_state (meter w) = Some f → _last_state (meter w) = Some l →
  heap w !! l = Some s →
  is_stopped w = true ↔ tag s = stop_tag.
Proof.
  intros Hf Hl Hs. unfold is_stopped. rewrite Hf, Hl, Hs.
  apply bool_decide_eq_true.
Qed.

Lemma is_stopped_inv w :
  is_stopped w = true →
  ∃ f l s, _first_state (meter w) = Some f ∧ _last_state (meter w) = Some l
         ∧ heap w !! l = Some s ∧ tag s = stop_tag.
Proof.
  unfold is_stopped.
  destruct (_first_state (meter w)) as [f|]; [|done].
  destruct (_last_state (meter w)) as [l|]; [|done].
  destruct (heap w !! l) as [s|] eqn:Hs; [|done].
  intros Ht%bool_decide_eq_true. by exists f, l, s.
Qed.

Lemma is_stopped_same w w' :
  heap w' = heap w → meter w' = meter w → is_stopped w' = is_stopped w.
Proof. unfold is_stopped. by intros -> ->. Qed.

(** The request for an iterator succeeds exactly in the Stopped state, and
    never writes. *)
Lemma iter_stopped w :
  is_stopped w = true →
  __iter__ w = (Ok (mkSampleIterator (_first_state (meter w))), w).
Proof.
  intros (f & l & s & Hf & Hl & Hs & Ht)%is_stopped_inv.
  unfold __iter__, SampleIterator_init. run. rewrite Hf, Hl. cbn.
  rewrite Hs. cbn. rewrite bool_decide_true by done. by rewrite Hf.
Qed.

Lemma iter_ok_stopped w it w' :
  __iter__ w = (Ok it, w') → is_stopped w = true.
Proof.
  unfold __iter__, SampleIterator_init, is_stopped. run.
  destruct (_first_state (meter w)) as [f|]; [|done].
  destruct (_last_state (meter w)) as [l|]; [|done]. cbn.
  destruct (heap w !! l) as [s|]; [|done].
  by destruct (bool_decide (tag s = stop_tag)).
Qed.

Lemma iter_keeps w : (__iter__ w).2 = w.
Proof.
  unfold __iter__, SampleIterator_init. run.
  destruct (_first_state (meter w)) as [f|]; [|done].
  destruct (_last_state (meter w)) as [l|]; [|done]. cbn.
  destruct (heap w !! l) as [s|]; [|done].
  by destruct (bool_decide (tag s = stop_tag)).
Qed.

Lemma drain_keeps fuel it w r w' :
  drain __next__ fuel it w = Some (r, w') →
  heap w' = heap w ∧ meter w' = meter w.
Proof.
  revert it w r w'. induction fuel as [|fuel IH]; intros it w r w'; [done|].
  simpl. pose proof (next_keeps it w) as [Hh Hm].
  destruct (__next__ it w) as [[[x it']|e] w1]; simpl in Hh, Hm.
  - destruct (drain __next__ fuel it' w1) as [[[xs|e] w2]|] eqn:Hd; [| |done].
    + intros [= <- <-]. apply IH in Hd as [-> ->]. done.
    + intros [= <- <-]. apply IH in Hd as [-> ->]. done.
  - destruct e; intros [= <- <-]; done.
Qed.

Lemma find_sample_keeps fuel it wanted w r w' :
  find_sample fuel it wanted w = Some (r, w') →
  heap w' = heap w ∧ meter w' = meter w.
Proof.
  revert it w r w'. induction fuel as [|fuel IH]; intros it w r w'; [done|].
  simpl. pose proof (next_keeps it w) as [Hh Hm].
  destruct (__next__ it w) as [[[x it']|e] w1]; simpl in Hh, Hm.
  - destruct (bool_decide (sample_tag x = wanted)).
    + intros [= <- <-]. done.
    + intros Hd. apply IH in Hd as [-> ->]. done.
  - destruct e; intros [= <- <-]; done.
Qed.

Lemma iterate_keeps fuel w r w' :
  iterate fuel w = Some (r, w') → heap w' = heap w ∧ meter w' = meter w.
Proof.
  unfold iterate. pose proof (iter_keeps w) as Hk.
  destruct (__iter__ w) as [[it|e] w1]; simpl in Hk; subst w1.
  - apply drain_keeps.
  - by intros [= <- <-].
Qed.

(** In the Stopped state [get_sample] is the search through a new iterator. *)
Lemma get_sample_stopped fuel wanted w :
  is_stopped w = true →
  get_sample fuel wanted w
  = find_sample fuel (mkSampleIterator (_first_state (meter w))) wanted w.
Proof.
  intros Hst. pose proof (iter_stopped w Hst) as Hit.
  apply is_stopped_inv in Hst as (f & l & s & Hf & Hl & Hs & Ht).
  unfold get_sample. rewrite Hf, Hl.
  change ((bind (deref (Some l)) (λ last, load last)) w)
    with (match heap w !! l with
          | Some s => (Ok s, w)
          | None => (Raise InvalidReference, w)
          end).
  rewrite Hs, bool_decide_true by done. by rewrite Hit, Hf.
Qed.

Lemma get_sample_keeps fuel wanted w r w' :
  get_sample fuel wanted w = Some (r, w') →
  heap w' = heap w ∧ meter w' = meter w.
Proof.
  destruct (is_stopped w) eqn:Hst.
  - rewrite get_sample_stopped by done. apply find_sample_keeps.
  - unfold get_sample. run.
    destruct (_first_state (meter w)) as [f|] eqn:Hf; [|by intros [= <- <-]].
    destruct (_last_state (meter w)) as [l|] eqn:Hl; [|by intros [= <- <-]].
    cbn. destruct (heap w !! l) as [s|] eqn:Hs; [|by intros [= <- <-]].
    destruct (bool_decide (tag s = stop_tag)) eqn:Hb; [|by intros [= <- <-]].
    exfalso. apply bool_decide_eq_true in Hb.
    apply (is_stopped_tag w f l s Hf Hl Hs) in Hb. congruence.
Qed.

(** C4 (amended): a Stopped controller stays Stopped under [stop()],
    [get_sample()] and iteration, none of the last two writing to the trace,
    and under a [record(tag)] that fails; a successful [record(tag)], like a
    [start(tag)], leaves it Stopped exactly when its effective tag is
    ["__stop__"]. *)
Theorem stopped_until_new_tag w :
  is_stopped w = true →
  is_stopped (stop w).2 = true
  ∧ (∀ fuel wanted r w', get_sample fuel wanted w = Some (r, w') →
       heap w' = heap w ∧ meter w' = meter w ∧ is_stopped w' = true)
  ∧ (∀ fuel r w', iterate fuel w = Some (r, w') →
       heap w' = heap w ∧ meter w' = meter w ∧ is_stopped w' = true)
  ∧ (∀ tg w', record tg w = (Ok tt, w') →
       is_stopped w' = true ↔ default (default_tag (meter w)) tg = stop_tag)
  ∧ (∀ tg e w', record tg w = (Raise e, w') → is_stopped w' = true)
  ∧ (∀ tg, is_stopped (start tg w).2 = true
           ↔ default (default_tag (meter w)) tg = stop_tag).
Proof.
  intros Hst.
  assert (Hraise : ∀ tg e w', record tg w = (Raise e, w') →
            is_stopped w' = true).
  { intros tg e w' [Hm Hh]%record_raise.
    apply is_stopped_inv in Hst as (f & l & s & Hf & Hl & Hs & Ht).
    eapply is_stopped_tag; [by rewrite Hm| by rewrite Hm| by apply Hh |done]. }
  assert (Hnew : ∀ tg w',
            start tg w = (Ok tt, w') ∨ record tg w = (Ok tt, w') →
            is_stopped w' = true ↔ default (default_tag (meter w)) tg = stop_tag).
  { intros tg w' Hop.
    destruct (last_tag_after tg w w' Hop) as (f & l & s & Hf & Hl & Hs & Ht).
    rewrite <- Ht. by eapply is_stopped_tag. }
  split; [|split; [|split; [|split; [|split]]]].
  - rewrite stop_is_record.
    destruct (record (Some stop_tag) w) as [[[]|e] w'] eqn:Hr; simpl.
    + by apply (Hnew (Some stop_tag) w' (or_intror Hr)).
    + by eapply Hraise.
  - intros fuel wanted r w' [Hh Hm]%get_sample_keeps.
    by rewrite (is_stopped_same w).
  - intros fuel r w' [Hh Hm]%iterate_keeps.
    by rewrite (is_stopped_same w).
  - intros tg w' Hr. apply Hnew. by right.
  - exact Hraise.
  - intros tg. apply Hnew. left. by rewrite start_eq.
Qed.

(** ** [get_sample] against the iteration *)

Lemma find_sample_drain fuel it wanted w samples w' :
  drain __next__ fuel it w = Some (Ok samples, w') →
  ∃ w'', find_sample fuel it wanted w
         = Some (match list_find (λ x, sample_tag x = wanted) samples with
                 | Some (_, x) => Ok x
                 | None => Raise SampleNotFoundError
                 end, w'').
Proof.
  revert it w samples w'.
  induction fuel as [|fuel IH]; intros it w samples w'; [done|].
  simpl. destruct (__next__ it w) as [[[x it']|e] w1].
  - destruct (drain __next__ fuel it' w1) as [[[xs|e] w2]|] eqn:Hd; [|done..].
    intros [= <- <-]. simpl.
    destruct (decide (sample_tag x = wanted)) as [Hx|Hx].
    + rewrite bool_decide_true by done. by eexists.
    + rewrite bool_decide_false by done.
      destruct (IH _ _ _ _ Hd) as [w'' ->]. exists w''.
      by destruct (list_find _ xs) as [[i y]|].
  - destruct e; intros [= <- <-]; by eexists.
Qed.


(** ** Stable devices: the iteration does not depend on when it runs *)

Lemma domain_keys_stable ds t t' :
  stable_domains → domain_keys ds t = domain_keys ds t'.
Proof.
  intros Hst. unfold domain_keys. f_equal.
  revert t t'. induction ds as [|d ds IH]; intros t t'; simpl; [done|].
  by rewrite (Hst d t t'), (IH (S t) (S t')).
Qed.

Lemma next_same it w1 w2 :
  stable_domains → heap w1 = heap w2 → meter w1 = meter w2 →
  (__next__ it w1).1 = (__next__ it w2).1.
Proof.
  intros Hst Hh Hm. rewrite !next_eq, Hh, Hm.
  rewrite (domain_keys_stable _ (ticks w1) (ticks w2)) by done.
  repeat (match goal with |- context [match ?x with _ => _ end] =>
            destruct x end; simpl; try done).
Qed.

Lemma drain_same fuel it w1 w2 r w1' :
  stable_domains → heap w1 = heap w2 → meter w1 = meter w2 →
  drain __next__ fuel it w1 = Some (r, w1') →
  ∃ w2', drain __next__ fuel it w2 = Some (r, w2').
Proof.
  intros Hst. revert it w1 w2 r w1'.
  induction fuel as [|fuel IH]; intros it w1 w2 r w1' Hh Hm; [done|].
  simpl. pose proof (next_same it w1 w2 Hst Hh Hm) as Hr.
  pose proof (next_keeps it w1) as [Hh1 Hm1].
  pose proof (next_keeps it w2) as [Hh2 Hm2].
  destruct (__next__ it w1) as [r1 v1], (__next__ it w2) as [r2 v2].
  simpl in *. subst r2.
  destruct r1 as [[x it']|e].
  - destruct (drain __next__ fuel it' v1) as [[q v1']|] eqn:Hd; [|done].
    destruct (IH it' v1 v2 q v1') as [v2' ->]; [congruence..|done|].
    destruct q; intros [= <- <-]; by eexists.
  - destruct e; intros [= <- <-]; by eexists.
Qed.

(** C10 (amended): an iteration of a Stopped trace writes neither to the
    chain nor to the controller, and, with devices whose domain lists are
    stable, an iteration started next, with no [start], [record] or [stop]
    in between, ends with the same outcome: the same samples, equal in
    timestamp, tag, duration and energy mapping. *)
Theorem iteration_repeatable fuel w r w' :
  stable_domains →
  is_stopped w = true →
  iterate fuel w = Some (r, w') →
  heap w' = heap w ∧ meter w' = meter w
  ∧ ∃ w'', iterate fuel w' = Some (r, w'').
Proof.
  intros Hst Hs Hit.
  destruct (iterate_keeps _ _ _ _ Hit) as [Hh Hm].
  split; [done|]. split; [done|].
  assert (Hs' : is_stopped w' = true) by by rewrite (is_stopped_same w).
  unfold iterate in *. rewrite iter_stopped in * by done.
  rewrite Hm. by apply (drain_same fuel _ w w' r w').
Qed.

(** ** The producer with keys computed once *)

Lemma once_next_eq domains it w :
  once_next domains it w =
  match _current_state it with
  | None => (Raise AttributeError, w)
  | Some a =>
    match heap w !! a with
    | None => (Raise InvalidReference, w)
    | Some s =>
      match next_state s with
      | None => (Raise StopIteration, w)
      | Some b =>
        match heap w !! b with
        | None => (Raise InvalidReference, w)
        | Some s' =>
            (Ok (sample_between s s' domains, mkSampleIterator (Some b)), w)
        end
      end
    end
  end.
Proof.
  unfold once_next. unfold bind at 1.
  destruct (_current_state it) as [a|]; [|done]. simpl.
  unfold bind at 1. unfold load at 1.
  destruct (heap w !! a) as [s|] eqn:Ha; [|done].
  destruct (next_state s) as [b|] eqn:Hb; [|done].
  unfold compute_duration, compute_energy. run. cbn.
  rewrite Ha. cbn. rewrite Hb. cbn.
  destruct (heap w !! b) as [s'|] eqn:Hs'; [|done]. cbn.
  rewrite Ha. cbn. rewrite Hb. cbn. by rewrite Hs'.
Qed.

Lemma once_domain_keys_eq w :
  once_domain_keys w
  = (Ok (domain_keys (devices (meter w)) (ticks w)),
     advance (length (devices (meter w))) w).
Proof.
  unfold once_domain_keys, bind, self_meter.
  by rewrite comprehension_external.
Qed.

Lemma drain_once fuel it w1 w2 t :
  stable_domains → devices (meter w1) ≠ [] →
  heap w1 = heap w2 → meter w1 = meter w2 →
  fst <$> drain __next__ fuel it w1
  = fst <$> drain (once_next (domain_keys (devices (meter w1)) t)) fuel it w2.
Proof.
  intros Hst. revert it w1 w2.
  induction fuel as [|fuel IH]; intros it w1 w2 Hd Hh Hm; [done|].
  simpl. rewrite next_eq, once_next_eq, <- Hh.
  destruct (_current_state it) as [a|]; [|done].
  destruct (heap w1 !! a) as [s|]; [|done].
  destruct (next_state s) as [b|]; [|done].
  destruct (devices (meter w1)) as [|d ds] eqn:Hds; [done|].
  destruct (heap w1 !! b) as [s'|]; [|done].
  rewrite <- Hds in *.
  rewrite (domain_keys_stable _ (ticks w1) t) by done.
  specialize (IH (mkSampleIterator (Some b))
                 (advance (length (devices (meter w1))) w1) w2 Hd Hh Hm).
  simpl in IH.
  destruct (drain __next__ fuel _ _) as [[[xs|e] v1]|];
    destruct (drain (once_next _) fuel _ _) as [[[ys|e'] v2]|];
    simpl in *; congruence.
Qed.

Lemma drain_ticks fuel it w samples w' :
  drain __next__ fuel it w = Some (Ok samples, w') →
  ticks w' = length samples * length (devices (meter w)) + ticks w.
Proof.
  revert it w samples w'.
  induction fuel as [|fuel IH]; intros it w samples w'; [done|].
  simpl. destruct (__next__ it w) as [[[x it']|e] w1] eqn:Hn.
  - apply next_ok_inv in Hn as (a & s & b & s' & _ & _ & _ & _ & _ & _ & _ & ->).
    destruct (drain __next__ fuel it' _) as [[[xs|e] w2]|] eqn:Hd; [|done..].
    intros [= <- <-]. apply IH in Hd. rewrite Hd. simpl. lia.
  - rewrite next_eq in Hn.
    destruct e; try done. intros [= <- <-]. simpl.
    repeat (match type of Hn with context [match ?x with _ => _ end] =>
              destruct x end; try done).
    by injection Hn as <-.
Qed.

Lemma drain_once_ticks domains fuel it w samples w' :
  drain (once_next domains) fuel it w = Some (Ok samples, w') → w' = w.
Proof.
  revert it w samples w'.
  induction fuel as [|fuel IH]; intros it w samples w'; [done|].
  simpl. rewrite once_next_eq.
  destruct (_current_state it) as [a|]; [|done].
  destruct (heap w !! a) as [s|]; [|done].
  destruct (next_state s) as [b|]; [|by intros [= <- <-]].
  destruct (heap w !! b) as [s'|]; [|done].
  destruct (drain (once_next domains) fuel _ _) as [[[xs|e] w2]|] eqn:Hd;
    [|done..].
  intros [= <- <-]. by apply IH in Hd.
Qed.


(** ** The energy mapping *)

Lemma fold_insert_other (l : list (Float * Domain)) (acc : gmap string Float) k :
  (∀ j v key, l !! j = Some (v, key) → str key ≠ k) →
  foldl (λ d p, <[str p.2 := p.1]> d) acc l !! k = acc !! k.
Proof.
  revert acc. induction l as [|[v key] l IH]; intros acc Hl; simpl; [done|].
  rewrite IH.
  - apply lookup_insert_ne. by apply (Hl 0 v key).
  - intros j v' key' Hj. by apply (Hl (S j) v' key').
Qed.

Lemma fold_insert_last (l : list (Float * Domain)) (acc : gmap string Float)
    j v key :
  l !! j = Some (v, key) →
  (∀ j' v' key', j < j' → l !! j' = Some (v', key') → str key' ≠ str key) →
  foldl (λ d p, <[str p.2 := p.1]> d) acc l !! str key = Some v.
Proof.
  revert acc j. induction l as [|[v0 key0] l IH]; intros acc j Hj Hlater;
    [done|]. simpl. destruct j as [|j].
  - injection Hj as -> ->. rewrite fold_insert_other.
    + apply lookup_insert_eq.
    + intros j v' key' Hj. apply (Hlater (S j) v' key'); [lia|done].
  - apply (IH _ j); [done|].
    intros j' v' key' Hlt Hj'. apply (Hlater (S j') v' key'); [lia|done].
Qed.

Lemma fold_insert_dom (l : list (Float * Domain)) (acc : gmap string Float) k :
  is_Some (foldl (λ d p, <[str p.2 := p.1]> d) acc l !! k)
  ↔ is_Some (acc !! k) ∨ ∃ j v key, l !! j = Some (v, key) ∧ str key = k.
Proof.
  revert acc. induction l as [|[v0 key0] l IH]; intros acc; simpl.
  - split; [by left|]. intros [H|(j & v & key & Hj & _)]; done.
  - rewrite IH. rewrite lookup_insert_is_Some. split.
    + intros [[Heq|[Hne Hacc]]|(j & v & key & Hj & Hk)].
      * right. by exists 0, v0, key0.
      * by left.
      * right. by exists (S j), v, key.
    + intros [Hacc|(j & v & key & Hj & Hk)].
      * destruct (decide (str key0 = k)); [left; by left|].
        left. right. done.
      * destruct j as [|j].
        -- injection Hj as -> ->. left. by left.
        -- right. by exists j, v, key.
Qed.

Lemma lookup_zip_pair {A B} (l : list A) (k : list B) j x y :
  zip l k !! j = Some (x, y) ↔ l !! j = Some x ∧ k !! j = Some y.
Proof.
  split.
  - intros (x' & y' & [= -> ->] & Hx & Hy)%lookup_zip_with_Some. done.
  - intros [Hx Hy]. apply lookup_zip_with_Some. by exists x, y.
Qed.

(** The mapping built by [compute_energy], read by lookups. *)
Lemma values_dict_spec (deltas : list Float) (keys : list Domain) :
  (∀ j key v, keys !! j = Some key → deltas !! j = Some v →
     (∀ j' key', j < j' → j' < length deltas → keys !! j' = Some key' →
        str key' ≠ str key) →
     values_dict deltas keys !! str key = Some v)
  ∧ (∀ k, is_Some (values_dict deltas keys !! k)
          ↔ ∃ j key, j < length deltas ∧ keys !! j = Some key ∧ str key = k)
  ∧ (length deltas = length keys →
     ∀ key, key ∈ keys → is_Some (values_dict deltas keys !! str key)).
Proof.
  assert (Hdom : ∀ k, is_Some (values_dict deltas keys !! k)
          ↔ ∃ j key, j < length deltas ∧ keys !! j = Some key ∧ str key = k).
  { intros k. unfold values_dict. rewrite fold_insert_dom. split.
    - intros [[? H]|(j & v & key & Hj & Hk)]; [by rewrite lookup_empty in H|].
      apply lookup_zip_pair in Hj as [Hv Hkey].
      exists j, key. split; [by eapply lookup_lt_Some|done].
    - intros (j & key & Hlt & Hkey & Hk). right.
      destruct (lookup_lt_is_Some_2 deltas j Hlt) as [v Hv].
      exists j, v, key. by rewrite lookup_zip_pair. }
  split; [|split; [done|]].
  - intros j key v Hkey Hv Hlater. unfold values_dict.
    apply (fold_insert_last _ _ j); [by rewrite lookup_zip_pair|].
    intros j' v' key' Hlt [Hv' Hkey']%lookup_zip_pair.
    apply (Hlater j'); [done| by eapply lookup_lt_Some |done].
  - intros Hlen key [j Hj]%list_elem_of_lookup. apply Hdom.
    exists j, key. split; [|done].
    rewrite Hlen. by eapply lookup_lt_Some.
Qed.

(** Every sample of an iteration is the sample of two adjacent states. *)
Lemma drain_samples fuel it w samples w' :
  drain __next__ fuel it w = Some (Ok samples, w') →
  ∀ x, x ∈ samples →
  ∃ a s b s' t,
    heap w !! a = Some s ∧ next_state s = Some b ∧ heap w !! b = Some s'
    ∧ x = sample_between s s' (domain_keys (devices (meter w)) t).
Proof.
  revert it w samples w'.
  induction fuel as [|fuel IH]; intros it w samples w'; [done|].
  simpl. destruct (__next__ it w) as [[[x0 it']|e] w1] eqn:Hn.
  - apply next_ok_inv in Hn
      as (a & s & b & s' & _ & Ha & Hb & Hs' & _ & -> & -> & ->).
    destruct (drain __next__ fuel _ _) as [[[xs|e] w2]|] eqn:Hd; [|done..].
    intros [= <- <-] x [->|Hx]%elem_of_cons.
    + by exists a, s, b, s', (ticks w).
    + apply (IH _ _ _ _ Hd) in Hx. exact Hx.
  - destruct e; try done. intros [= <- <-] x Hx. by apply elem_of_nil in Hx.
Qed.

(** C1 (amended): every sample yielded by the iteration of a Stopped trace
    belongs to a state [s] and its successor [s']; the deltas are the
    differences, successor minus current, device by device and flattened in
    device order, the keys are the devices' domain lists concatenated in
    device order.  In its energy mapping the string of the key at a position
    maps to the delta at that position, provided no later position that has
    a delta carries the same string (a repeated string keeps its last delta);
    the mapping has an entry exactly for the strings of the keys that have a
    delta, hence for every key when the lengths match. *)
Theorem energy_mapping_of_each_sample fuel w samples w' i x :
  is_stopped w = true →
  iterate fuel w = Some (Ok samples, w') →
  samples !! i = Some x →
  ∃ a s b s' t,
    heap w !! a = Some s ∧ next_state s = Some b ∧ heap w !! b = Some s'
    ∧ sample_timestamp x = timestamp s ∧ sample_tag x = tag s
    ∧ let deltas := flat_deltas s s' in
      let keys := domain_keys (devices (meter w)) t in
      (∀ j key v, keys !! j = Some key → deltas !! j = Some v →
         (∀ j' key', j < j' → j' < length deltas → keys !! j' = Some key' →
            str key' ≠ str key) →
         energy x !! str key = Some v)
      ∧ (∀ k, is_Some (energy x !! k)
              ↔ ∃ j key, j < length deltas ∧ keys !! j = Some key
                         ∧ str key = k)
      ∧ (length deltas = length keys →
         ∀ key, key ∈ keys → is_Some (energy x !! str key)).
Proof.
  intros Hst Hit Hx%list_elem_of_lookup_2.
  unfold iterate in Hit. rewrite iter_stopped in Hit by done.
  destruct (drain_samples _ _ _ _ _ Hit x Hx)
    as (a & s & b & s' & t & Ha & Hb & Hs' & ->).
  exists a, s, b, s', t. repeat (split; [done|]).
  unfold sample_between, flat_deltas. simpl.
  rewrite energy_deltas_concat. apply values_dict_spec.
Qed.

(** ** Sessions build a chain *)

Lemma chain_head h a l : chain h a l → ∃ l', l = a :: l'.
Proof. destruct 1; by eexists. Qed.

Lemma chain_last_state h a l b :
  chain h a l → last l = Some b →
  ∃ sb, h !! b = Some sb ∧ next_state sb = None.
Proof.
  induction 1 as [a s Ha Hn|a s c l Ha Hn Hc IH]; intros Hl.
  - injection Hl as <-. by exists s.
  - destruct (chain_head _ _ _ Hc) as [l' ->]. by apply IH.
Qed.

(** Linking a new state behind the last one extends the chain by it. *)
Lemma chain_snoc h a l b sb new :
  chain h a l → last l = Some b → h !! b = Some sb →
  next_state new = None →
  chain (<[b := mkEnergyState (timestamp sb) (tag sb) (values sb)
                  (Some (length h))]> (h ++ [new]))
        a (l ++ [length h]).
Proof.
  intros Hc Hl Hb Hnew.
  assert (Hlt : b < length h) by by eapply lookup_lt_Some.
  assert (Hnew' : (<[b := mkEnergyState (timestamp sb) (tag sb) (values sb)
                           (Some (length h))]> (h ++ [new])) !! length h
                  = Some new).
  { rewrite list_lookup_insert_ne by lia.
    by rewrite lookup_app_r, Nat.sub_diag. }
  induction Hc as [a s Ha Hn|a s c l Ha Hn Hc IH].
  - injection Hl as <-. simpl. eapply chain_next.
    + apply list_lookup_insert_eq. rewrite length_app. lia.
    + done.
    + by eapply chain_last.
  - destruct (chain_head _ _ _ Hc) as [l' ->].
    destruct (chain_last_state _ _ _ _ Hc Hl) as (sb' & Hb' & Hnb).
    assert (a ≠ b) by (intros ->; congruence).
    simpl. eapply chain_next.
    + rewrite list_lookup_insert_ne by done. by apply lookup_app_l_Some.
    + done.
    + by apply IH.
Qed.

Lemma record_chain tg w f l :
  _first_state (meter w) = Some f → _last_state (meter w) = last l →
  chain (heap w) f l →
  ∃ w', record tg w = (Ok tt, w')
      ∧ _first_state (meter w') = Some f
      ∧ _last_state (meter w') = last (l ++ [length (heap w)])
      ∧ chain (heap w') f (l ++ [length (heap w)])
      ∧ devices (meter w') = devices (meter w)
      ∧ default_tag (meter w') = default_tag (meter w)
      ∧ (tag <$> heap w' !! length (heap w))
        = Some (default (default_tag (meter w)) tg).
Proof.
  intros Hf Hl Hc.
  destruct (chain_head _ _ _ Hc) as [l' ->].
  destruct (last (f :: l')) as [b|] eqn:Hlast.
  2:{ by rewrite last_cons in Hlast; destruct (last l'). }
  destruct (chain_last_state _ _ _ _ Hc Hlast) as (sb & Hb & Hn).
  assert (Hlt : b < length (heap w)) by by eapply lookup_lt_Some.
  eexists. split; [|split; [|split; [|split; [|split; [|split]]]]].
  - unfold record. unfold bind at 1. unfold self_meter at 1. rewrite Hf.
    unfold bind at 1. rewrite measure_new_state_eq.
    unfold bind at 1. rewrite Hl. simpl.
    unfold add_next_state. run. cbn.
    rewrite (lookup_app_l_Some _ _ _ _ Hb). cbn. rewrite Hn. cbn. done.
  - done.
  - by rewrite last_snoc.
  - by apply chain_snoc.
  - done.
  - done.
  - simpl. rewrite list_lookup_insert_ne by lia.
    by rewrite lookup_app_r, Nat.sub_diag.
Qed.

Lemma records_chain tags w f l :
  _first_state (meter w) = Some f → _last_state (meter w) = last l →
  chain (heap w) f l →
  ∃ w' l', records tags w = (Ok tt, w')
      ∧ _first_state (meter w') = Some f
      ∧ _last_state (meter w') = last l'
      ∧ chain (heap w') f l'
      ∧ length l' = length l + length tags
      ∧ devices (meter w') = devices (meter w)
      ∧ default_tag (meter w') = default_tag (meter w).
Proof.
  revert w l. induction tags as [|tg tags IH]; intros w l Hf Hl Hc.
  - exists w, l. repeat split; try done; simpl; lia.
  - destruct (record_chain tg w f l Hf Hl Hc)
      as (w1 & Hr & Hf1 & Hl1 & Hc1 & Hd1 & Ht1 & _).
    destruct (IH w1 _ Hf1 Hl1 Hc1) as (w' & l' & Hrs & ? & ? & ? & Hlen & ? & ?).
    exists w', l'. repeat split; try done; try congruence.
    + simpl. unfold bind. by rewrite Hr.
    + rewrite Hlen, length_app. simpl. lia.
Qed.

(** A session always succeeds; it leaves a Stopped controller whose chain
    has one state for [start], one per [record] and one for [stop]. *)
Lemma session_chain first tags w :
  ∃ w' f l, session first tags w = (Ok tt, w')
      ∧ _first_state (meter w') = Some f
      ∧ chain (heap w') f l
      ∧ length l = length tags + 2
      ∧ is_stopped w' = true
      ∧ devices (meter w') = devices (meter w).
Proof.
  pose (w0 := (start first w).2).
  assert (H0 : start first w = (Ok tt, w0))
    by by unfold w0; rewrite start_eq.
  assert (Hf0 : _first_state (meter w0) = Some (length (heap w)))
    by by unfold w0; rewrite start_eq.
  assert (Hl0 : _last_state (meter w0) = last [length (heap w)])
    by by unfold w0; rewrite start_eq.
  assert (Hc0 : chain (heap w0) (length (heap w)) [length (heap w)]).
  { unfold w0. rewrite start_eq. simpl.
    apply (chain_last _ _ (measured first w)); [|done].
    by rewrite lookup_app_r, Nat.sub_diag. }
  assert (Hd0 : devices (meter w0) = devices (meter w))
    by by unfold w0; rewrite start_eq.
  destruct (records_chain tags w0 _ _ Hf0 Hl0 Hc0)
    as (w1 & l1 & Hrs & Hf1 & Hl1 & Hc1 & Hlen1 & Hd1 & _).
  destruct (record_chain (Some stop_tag) w1 _ _ Hf1 Hl1 Hc1)
    as (w2 & Hstop & Hf2 & Hl2 & Hc2 & Hd2 & _ & Htag).
  exists w2, (length (heap w)), (l1 ++ [length (heap w1)]).
  split; [|split; [|split; [|split; [|split]]]]; try done.
  - unfold session, bind. rewrite H0, Hrs.
    by rewrite stop_is_record, Hstop.
  - rewrite length_app, Hlen1. simpl. lia.
  - rewrite last_snoc in Hl2.
    destruct (heap w2 !! length (heap w1)) as [s|] eqn:Hs; [|done].
    eapply is_stopped_tag; [done..|]. by injection Htag.
  - congruence.
Qed.

Lemma drain_S next fuel it w :
  drain next (S fuel) it w =
  match next it w with
  | (Ok (sample, it'), w') =>
      match drain next fuel it' w' with
      | Some (Ok samples, w'') => Some (Ok (sample :: samples), w'')
      | other => other
      end
  | (Raise StopIteration, w') => Some (Ok [], w')
  | (Raise e, w') => Some (Raise e, w')
  end.
Proof. done. Qed.

(** On a chain, with at least one device, the iteration ends and yields one
    sample per link. *)
Lemma drain_chain h a l :
  chain h a l → ∀ w, heap w = h → devices (meter w) ≠ [] →
  ∃ samples w',
    drain __next__ (length l) (mkSampleIterator (Some a)) w
    = Some (Ok samples, w')
    ∧ S (length samples) = length l.
Proof.
  induction 1 as [a s Ha Hn|a s c l Ha Hn Hc IH]; intros w <- Hd.
  - exists [], w. simpl. rewrite next_eq. simpl. by rewrite Ha, Hn.
  - destruct (chain_head _ _ _ Hc) as [l' ->].
    assert (∃ sc, heap w !! c = Some sc) as [sc Hsc] by (inversion Hc; eauto).
    destruct (IH (advance (length (devices (meter w))) w) eq_refl Hd)
      as (xs & w' & Hdr & Hlen).
    eexists (_ :: xs), w'. split.
    + change (length (a :: c :: l')) with (S (length (c :: l'))).
      rewrite drain_S, next_eq. simpl _current_state. cbv iota beta.
      rewrite Ha, Hn, Hsc.
      destruct (devices (meter w)) eqn:Hds; [done|]. rewrite <- Hds in *.
      by rewrite Hdr.
    + simpl. by rewrite Hlen.
Qed.

(** Hence the iteration of a Stopped trace ends: on a controller with at
    least one device whose first state heads a chain, enough fuel gives the
    samples. *)
Lemma iterate_chain w f l :
  is_stopped w = true → _first_state (meter w) = Some f →
  chain (heap w) f l → devices (meter w) ≠ [] →
  ∃ samples w',
    iterate (length l) w = Some (Ok samples, w')
    ∧ S (length samples) = length l.
Proof.
  intros Hst Hf Hc Hd.
  destruct (drain_chain _ _ _ Hc w eq_refl Hd) as (xs & w' & Hdr & Hlen).
  exists xs, w'. split; [|done].
  unfold iterate. by rewrite iter_stopped, Hf.
Qed.

(** With at least one device a session of [N] [record()] calls is iterated
    into [N + 1] samples. *)
Lemma session_sample_count first tags w :
  devices (meter w) ≠ [] →
  ∃ w1 samples w2,
    session first tags w = (Ok tt, w1)
    ∧ iterate (length tags + 2) w1 = Some (Ok samples, w2)
    ∧ length samples = length tags + 1.
Proof.
  intros Hd.
  destruct (session_chain first tags w)
    as (w1 & f & l & Hs & Hf & Hc & Hlen & Hst & Hd1).
  destruct (drain_chain _ _ _ Hc w1 eq_refl) as (xs & w2 & Hdr & Hx);
    [congruence|].
  exists w1, xs, w2. split; [done|]. split.
  - unfold iterate. rewrite iter_stopped, Hf, <- Hlen by done. done.
  - lia.
Qed.

(** Without any device the same session is not iterated at all: the first
    [__next__] raises [TypeError]. *)
Lemma session_no_device first tags w :
  devices (meter w) = [] →
  ∃ w1, session first tags w = (Ok tt, w1)
      ∧ ∀ fuel, iterate (S fuel) w1 = Some (Raise TypeError, w1).
Proof.
  intros Hd.
  destruct (session_chain first tags w)
    as (w1 & f & l & Hs & Hf & Hc & Hlen & Hst & Hd1).
  exists w1. split; [done|]. intros fuel.
  unfold iterate. rewrite iter_stopped, Hf by done. simpl.
  rewrite next_eq. simpl.
  inversion Hc as [a s Ha Hn|a s c l' Ha Hn Hc']; subst.
  - simpl in Hlen. lia.
  - by rewrite Ha, Hn, Hd1, Hd.
Qed.

(** * Whole traces *)

(** ** What [record] writes *)

Lemma record_eq tg w f l sl :
  _first_state (meter w) = Some f → _last_state (meter w) = Some l →
  heap w !! l = Some sl → next_state sl = None →
  record tg w
  = (Ok tt,
     mkWorld (S (length (devices (meter w))) + ticks w)
       (<[l := mkEnergyState (timestamp sl) (tag sl) (values sl)
                 (Some (length (heap w)))]>
          (heap w ++ [measured tg w]))
       (mkEnergyMeter (devices (meter w)) (default_tag (meter w))
                      (Some (length (heap w))) (Some f))).
Proof.
  intros Hf Hl Hsl Hn.
  unfold record. unfold bind at 1. unfold self_meter at 1. rewrite Hf.
  unfold bind at 1. rewrite measure_new_state_eq.
  unfold bind at 1. rewrite Hl. simpl.
  unfold add_next_state. run. cbn.
  rewrite (lookup_app_l_Some _ _ _ _ Hsl). cbn. rewrite Hn. cbn. done.
Qed.

Lemma stored_one h m :
  next_state m = None → stored (h ++ [m]) (length h) [m].
Proof.
  intros Hn [|i] m0 Hi; [|done]. injection Hi as <-.
  exists m. rewrite Nat.add_0_r, lookup_app_r, Nat.sub_diag by done.
  by repeat split.
Qed.

Lemma stored_snoc h f ms m sl :
  ms ≠ [] → stored h f ms → length h = f + length ms →
  next_state m = None → h !! (f + length ms - 1) = Some sl →
  stored (<[f + length ms - 1 :=
              mkEnergyState (timestamp sl) (tag sl) (values sl)
                            (Some (length h))]> (h ++ [m]))
         f (ms ++ [m]).
Proof.
  intros Hne Hst Hlen Hn Hsl i m0 Hi.
  assert (Hpos : 0 < length ms) by (destruct ms; [done|simpl; lia]).
  rewrite length_app. simpl.
  destruct (decide (i < length ms - 1)) as [Hlt|Hge].
  - rewrite lookup_app_l in Hi by lia.
    destruct (Hst i m0 Hi) as (s & Hs & Hts & Htag & Hv & Hnext).
    exists s. rewrite list_lookup_insert_ne by lia.
    rewrite (lookup_app_l_Some _ _ _ _ Hs).
    repeat split; try done.
    rewrite Hnext. rewrite !decide_True by lia. done.
  - destruct (decide (i = length ms - 1)) as [->|Hne'].
    + rewrite lookup_app_l in Hi by lia.
      destruct (Hst _ m0 Hi) as (s & Hs & Hts & Htag & Hv & Hnext).
      replace (f + (length ms - 1)) with (f + length ms - 1) in * by lia.
      simplify_eq.
      eexists. split.
      { apply list_lookup_insert_eq. rewrite length_app. simpl. lia. }
      simpl. repeat split; try done.
      rewrite decide_True by lia. f_equal. lia.
    + assert (i = length ms) as ->.
      { apply lookup_lt_Some in Hi. rewrite length_app in Hi. simpl in Hi.
        lia. }
      rewrite lookup_app_r, Nat.sub_diag in Hi by done.
      injection Hi as <-.
      exists m. rewrite list_lookup_insert_ne by lia.
      rewrite <- Hlen, lookup_app_r, Nat.sub_diag by done.
      repeat split; try done. by rewrite decide_False by lia.
Qed.

Lemma record_trace tg w f ms :
  trace_is w f ms →
  ∃ w', record tg w = (Ok tt, w')
      ∧ trace_is w' f (ms ++ [measured tg w])
      ∧ ticks w' = S (length (devices (meter w))) + ticks w
      ∧ devices (meter w') = devices (meter w)
      ∧ default_tag (meter w') = default_tag (meter w).
Proof.
  intros (Hne & Hst & Hlen & Hf & Hl).
  assert (Hpos : 0 < length ms) by (destruct ms; [done|simpl; lia]).
  destruct (lookup_lt_is_Some_2 ms (length ms - 1)) as [m Hm]; [lia|].
  destruct (Hst _ m Hm) as (sl & Hsl & _ & _ & _ & Hnext).
  rewrite decide_False in Hnext by lia.
  replace (f + (length ms - 1)) with (f + length ms - 1) in Hsl by lia.
  eexists. split; [by apply (record_eq tg w f (f + length ms - 1) sl)|].
  split; [|done]. repeat split; simpl.
  - by destruct ms.
  - by apply stored_snoc.
  - rewrite length_insert, !length_app. simpl. lia.
  - rewrite length_app, Hlen. simpl. f_equal. lia.
Qed.

Lemma records_trace tags w f ms :
  trace_is w f ms →
  ∃ w', records tags w = (Ok tt, w')
      ∧ trace_is w' f
          (ms ++ measurements (devices (meter w)) (default_tag (meter w))
                   tags (ticks w))
      ∧ ticks w' = length tags * S (length (devices (meter w))) + ticks w
      ∧ devices (meter w') = devices (meter w)
      ∧ default_tag (meter w') = default_tag (meter w).
Proof.
  revert w ms. induction tags as [|tg tags IH]; intros w ms Htr.
  - exists w. simpl. by rewrite app_nil_r.
  - destruct (record_trace tg w f ms Htr) as (w1 & Hr & Htr1 & Ht1 & Hd1 & Hdt1).
    destruct (IH w1 _ Htr1) as (w' & Hrs & Htr' & Ht' & Hd' & Hdt').
    exists w'. simpl. unfold bind. rewrite Hr, Hrs.
    rewrite Hd1, Hdt1, Ht1, <- app_assoc in Htr'.
    split; [done|]. split; [exact Htr'|].
    split; [|split; congruence]. rewrite Ht', Hd1, Ht1. lia.
Qed.

Lemma opened_trace first tags w :
  ∃ w', opened first tags w = (Ok tt, w')
      ∧ trace_is w' (length (heap w))
          (measurements (devices (meter w)) (default_tag (meter w))
             (first :: tags) (ticks w))
      ∧ ticks w'
        = S (length tags) * S (length (devices (meter w))) + ticks w
      ∧ devices (meter w') = devices (meter w)
      ∧ default_tag (meter w') = default_tag (meter w).
Proof.
  pose (w0 := (start first w).2).
  assert (H0 : start first w = (Ok tt, w0))
    by by unfold w0; rewrite start_eq.
  assert (Htr0 : trace_is w0 (length (heap w)) [measured first w]).
  { unfold w0. rewrite start_eq. repeat split; simpl.
    - done.
    - by apply stored_one.
    - rewrite length_app. simpl. lia.
    - f_equal. lia. }
  destruct (records_trace tags w0 _ _ Htr0) as (w' & Hrs & Htr & Ht & Hd & Hdt).
  unfold w0 in Htr, Ht, Hd, Hdt. rewrite start_eq in Htr, Ht, Hd, Hdt.
  simpl in Htr, Ht, Hd, Hdt.
  exists w'. split; [|split; [exact Htr|split; [|done]]].
  - unfold opened, bind. by rewrite H0.
  - rewrite Ht. lia.
Qed.

(** ** Iterating a stored trace *)

Lemma stored_tail h a m ms :
  stored h a (m :: ms) → stored h (S a) ms.
Proof.
  intros Hst i m0 Hi.
  destruct (Hst (S i) m0 Hi) as (s & Hs & Hts & Htag & Hv & Hnext).
  exists s. replace (S a + i) with (a + S i) by lia.
  repeat split; try done. rewrite Hnext. simpl.
  destruct (decide (S (S i) < S (length ms))), (decide (S i < length ms));
    try lia; [|done]. f_equal. lia.
Qed.

Lemma advance_advance k n w : advance k (advance n w) = advance (k + n) w.
Proof. unfold advance. simpl. f_equal. lia. Qed.

Lemma drain_stored ms a w :
  stored (heap w) a ms → ms ≠ [] → devices (meter w) ≠ [] →
  drain __next__ (length ms) (mkSampleIterator (Some a)) w
  = Some (Ok (samples_of (devices (meter w)) (ticks w) ms),
          advance ((length ms - 1) * length (devices (meter w))) w).
Proof.
  revert a w. induction ms as [|m ms IH]; intros a w Hst Hne Hd; [done|].
  destruct (Hst 0 m eq_refl) as (s & Hs & Hts & Htag & Hv & Hnext).
  rewrite Nat.add_0_r in Hs.
  change (length (m :: ms)) with (S (length ms)).
  rewrite drain_S, next_eq. simpl _current_state. cbv iota beta.
  rewrite Hs, Hnext.
  destruct ms as [|m' ms].
  - simpl. by rewrite advance_0.
  - rewrite decide_True by (simpl; lia).
    destruct (Hst 1 m' eq_refl) as (s' & Hs' & Hts' & Htag' & Hv' & _).
    rewrite Hs'.
    destruct (devices (meter w)) as [|d ds] eqn:Hds; [done|].
    rewrite <- Hds in *.
    pose proof (stored_tail _ _ _ _ Hst) as Hst'.
    replace (a + 1) with (S a) by lia.
    rewrite (IH (S a) (advance (length (devices (meter w))) w)); [|done..].
    simpl. rewrite advance_advance. do 3 f_equal.
    + f_equal. unfold sample_between. by rewrite Hts, Htag, Hv, Hts', Hv'.
    + lia.
Qed.

Lemma trace_stopped w f ms m :
  trace_is w f ms → last ms = Some m →
  is_stopped w = true ↔ tag m = stop_tag.
Proof.
  intros (Hne & Hst & Hlen & Hf & Hl) Hm.
  rewrite last_lookup, <- Nat.sub_1_r in Hm.
  destruct (Hst _ m Hm) as (s & Hs & _ & Htag & _).
  assert (Hpos : 0 < length ms) by (destruct ms; [done|simpl; lia]).
  rewrite <- Htag. apply (is_stopped_tag w f (f + length ms - 1)); try done.
  by replace (f + length ms - 1) with (f + (length ms - 1)) by lia.
Qed.

(** The samples of a Stopped trace, with at least one device: one per pair
    of consecutive states, after one round of questions per sample. *)
Lemma iterate_trace w f ms :
  trace_is w f ms → is_stopped w = true → devices (meter w) ≠ [] →
  iterate (length ms) w
  = Some (Ok (samples_of (devices (meter w)) (ticks w) ms),
          advance ((length ms - 1) * length (devices (meter w))) w).
Proof.
  intros (Hne & Hst & Hlen & Hf & Hl) Hs Hd.
  unfold iterate. rewrite iter_stopped, Hf by done.
  by apply drain_stored.
Qed.

(** ** Sessions *)

Lemma bind_ret_tt (c : M unit) w : bind c (λ _, ret tt) w = c w.
Proof. unfold bind, ret. by destruct (c w) as [[[]|e] w']. Qed.

Lemma records_snoc tags tg w :
  records (tags ++ [tg]) w = bind (records tags) (λ _, record tg) w.
Proof.
  revert w. induction tags as [|t tags IH]; intros w; simpl.
  - by rewrite bind_ret_tt.
  - unfold bind at 1 2 3.
    destruct (record t w) as [[[]|e] w1]; [|done]. by rewrite IH.
Qed.

Lemma session_opened first tags w :
  session first tags w = opened first (tags ++ [Some stop_tag]) w.
Proof.
  unfold session, opened. unfold bind at 1 3.
  destruct (start first w) as [[[]|e] w1]; [|done].
  by rewrite records_snoc, stop_is_record.
Qed.

Lemma length_measurements ds dt tags t :
  length (measurements ds dt tags t) = length tags.
Proof.
  revert t. induction tags as [|tg tags IH]; intros t; simpl; [done|].
  by rewrite IH.
Qed.

Lemma lookup_measurements ds dt tags t i tg :
  tags !! i = Some tg →
  measurements ds dt tags t !! i
  = Some (mkEnergyState (perf_counter (i * S (length ds) + t))
                        (default dt tg)
                        (answers get_energy ds (S (i * S (length ds) + t)))
                        None).
Proof.
  revert t i. induction tags as [|tg0 tags IH]; intros t i Hi; [done|].
  destruct i as [|i]; simpl.
  - by injection Hi as ->.
  - rewrite (IH _ i Hi). do 3 f_equal; [f_equal; lia|do 2 f_equal; lia].
Qed.

Lemma length_samples_of ds t ms :
  length (samples_of ds t ms) = length ms - 1.
Proof.
  revert t. induction ms as [|m ms IH]; intros t; [done|].
  destruct ms as [|m' ms]; [done|].
  change (length (samples_of ds t (m :: m' :: ms)))
    with (S (length (samples_of ds (length ds + t) (m' :: ms)))).
  rewrite IH. simpl. lia.
Qed.

Lemma lookup_samples_of ds t ms i m m' :
  ms !! i = Some m → ms !! S i = Some m' →
  samples_of ds t ms !! i
  = Some (sample_between m m' (domain_keys ds (i * length ds + t))).
Proof.
  revert t i. induction ms as [|m0 ms IH]; intros t i Hi Hi'; [done|].
  destruct ms as [|m1 ms]; [done|].
  destruct i as [|i].
  - by simplify_eq/=.
  - change (samples_of ds t (m0 :: m1 :: ms) !! S i)
      with (samples_of ds (length ds + t) (m1 :: ms) !! i).
    rewrite (IH _ i Hi Hi'). do 3 f_equal. lia.
Qed.

Lemma tags_samples_of ds t ms m :
  sample_tag <$> samples_of ds t (ms ++ [m]) = tag <$> ms.
Proof.
  revert t. induction ms as [|m0 ms IH]; intros t; [done|].
  destruct ms as [|m1 ms]; [done|].
  change (sample_tag <$> samples_of ds t ((m0 :: m1 :: ms) ++ [m]))
    with (tag m0 :: (sample_tag <$>
            samples_of ds (length ds + t) ((m1 :: ms) ++ [m]))).
  by rewrite IH.
Qed.

Lemma tags_measurements ds dt tags t :
  tag <$> measurements ds dt tags t = default dt <$> tags.
Proof.
  revert t. induction tags as [|tg tags IH]; intros t; simpl; [done|].
  by rewrite IH.
Qed.

Lemma measurements_snoc ds dt tags tg t :
  measurements ds dt (tags ++ [tg]) t
  = measurements ds dt tags t
    ++ measurements ds dt [tg] (length tags * S (length ds) + t).
Proof.
  revert t. induction tags as [|tg0 tags IH]; intros t; [done|].
  simpl. rewrite IH.
  by replace (length tags * S (length ds) + S (length ds + t))
    with (S (length ds + length tags * S (length ds) + t)) by lia.
Qed.

(** A session from any store, with at least one device: what it leaves and
    what its iteration yields, in closed form. *)
Lemma session_run first tags w :
  devices (meter w) ≠ [] →
  ∃ w1,
    session first tags w = (Ok tt, w1)
    ∧ is_stopped w1 = true
    ∧ ticks w1 = (length tags + 2) * S (length (devices (meter w))) + ticks w
    ∧ devices (meter w1) = devices (meter w)
    ∧ iterate (length tags + 2) w1
      = Some (Ok (samples_of (devices (meter w)) (ticks w1)
                    (measurements (devices (meter w)) (default_tag (meter w))
                       (first :: tags ++ [Some stop_tag]) (ticks w))),
              advance ((length tags + 1) * length (devices (meter w))) w1).
Proof.
  intros Hd.
  destruct (opened_trace first (tags ++ [Some stop_tag]) w)
    as (w1 & Hop & Htr & Ht & Hd1 & Hdt1).
  rewrite length_app in Ht. simpl in Ht.
  assert (Hst : is_stopped w1 = true).
  { eassert (Hlast : last (measurements (devices (meter w))
                            (default_tag (meter w))
                            ((first :: tags) ++ [Some stop_tag]) (ticks w))
                     = Some _)
      by (rewrite measurements_snoc; apply last_snoc).
    by apply (proj2 (trace_stopped _ _ _ _ Htr Hlast)). }
  exists w1. rewrite session_opened.
  split; [done|]. split; [done|]. split; [rewrite Ht; lia|]. split; [done|].
  rewrite <- Hd1 in Hd.
  pose proof (iterate_trace w1 _ _ Htr Hst Hd) as Hit.
  rewrite length_measurements in Hit. simpl length in Hit.
  rewrite length_app in Hit. simpl in Hit.
  rewrite Hd1 in Hit.
  replace (length tags + 2) with (S (length tags + 1)) by lia.
  rewrite Hit. do 3 f_equal. lia.
Qed.

(** X1: from any store (whatever trace the controller held), with at least
    one device, [start(first)], [record(tag)] for each of [N] tags and
    [stop()] succeed, and the iteration yields [N + 1] samples.  The sample
    of the [i]-th call has the clock reading of that call as timestamp, the
    effective tag of that call as tag, the difference between the next
    clock reading and its own as duration, and for energy the mapping of the
    differences between the device readings of the next call and its own,
    under the keys asked when it is yielded. *)
Theorem session_samples first tags w :
  devices (meter w) ≠ [] →
  ∃ w1 samples w2,
    session first tags w = (Ok tt, w1)
    ∧ iterate (length tags + 2) w1 = Some (Ok samples, w2)
    ∧ length samples = length tags + 1
    ∧ ∀ i tg, (first :: tags) !! i = Some tg →
        ∃ x, samples !! i = Some x
          ∧ sample_timestamp x
            = perf_counter (i * S (length (devices (meter w))) + ticks w)
          ∧ sample_tag x = default (default_tag (meter w)) tg
          ∧ duration x
            = fsub (perf_counter
                      (S i * S (length (devices (meter w))) + ticks w))
                   (perf_counter
                      (i * S (length (devices (meter w))) + ticks w))
          ∧ energy x
            = values_dict
                (concat (zip_with (zip_with fsub)
                   (answers get_energy (devices (meter w))
                      (S (S i * S (length (devices (meter w))) + ticks w)))
                   (answers get_energy (devices (meter w))
                      (S (i * S (length (devices (meter w))) + ticks w)))))
                (domain_keys (devices (meter w))
                   (i * length (devices (meter w)) + ticks w1)).
Proof.
  intros Hd.
  destruct (session_run first tags w Hd) as (w1 & Hs & Hst & Ht & Hd1 & Hit).
  eexists w1, _, _. split; [exact Hs|]. split; [exact Hit|]. split.
  { rewrite length_samples_of, length_measurements. simpl.
    rewrite length_app. simpl. lia. }
  intros i tg Hi.
  assert (Hi1 : (first :: tags ++ [Some stop_tag]) !! i = Some tg).
  { change (first :: tags ++ [Some stop_tag])
      with ((first :: tags) ++ [Some stop_tag]).
    by apply lookup_app_l_Some. }
  destruct (lookup_lt_is_Some_2 (first :: tags ++ [Some stop_tag]) (S i))
    as [tg' Hi2].
  { apply lookup_lt_Some in Hi. simpl in *. rewrite length_app. simpl. lia. }
  eexists. split.
  { eapply lookup_samples_of; by apply lookup_measurements. }
  unfold sample_between. simpl. rewrite energy_deltas_concat. done.
Qed.

(** X2: the tags of the samples of a session are the effective tags of
    [start] and of the [record] calls, in call order; the tag of [stop()]
    itself is on no sample. *)
Theorem session_sample_tags first tags w :
  devices (meter w) ≠ [] →
  ∃ w1 samples w2,
    session first tags w = (Ok tt, w1)
    ∧ iterate (length tags + 2) w1 = Some (Ok samples, w2)
    ∧ sample_tag <$> samples
      = default (default_tag (meter w)) <$> (first :: tags).
Proof.
  intros Hd.
  destruct (session_run first tags w Hd) as (w1 & Hs & Hst & Ht & Hd1 & Hit).
  eexists w1, _, _. split; [exact Hs|]. split; [exact Hit|].
  change (first :: tags ++ [Some stop_tag])
    with ((first :: tags) ++ [Some stop_tag]).
  rewrite measurements_snoc.
  change (measurements ?ds ?dt [?tg] ?t)
    with [mkEnergyState (perf_counter t) (default dt tg)
            (answers get_energy ds (S t)) None].
  by rewrite tags_samples_of, tags_measurements.
Qed.

Lemma get_sample_of_samples fuel wanted w samples w' :
  is_stopped w = true →
  iterate fuel w = Some (Ok samples, w') →
  ∃ w'', get_sample fuel wanted w
         = Some (match list_find (λ x, sample_tag x = wanted) samples with
                 | Some (_, x) => Ok x
                 | None => Raise SampleNotFoundError
                 end, w'').
Proof.
  intros Hst Hit. rewrite get_sample_stopped by done.
  unfold iterate in Hit. rewrite iter_stopped in Hit by done.
  by apply (find_sample_drain _ _ wanted _ _ _ Hit).
Qed.

(** X3: after a session with at least one device, [get_sample(wanted)]
    returns the sample of the first call, [start] or [record], whose
    effective tag is [wanted], and raises [SampleNotFoundError] when no call
    had that tag: the tag of [stop()] itself cannot be looked up. *)
Theorem session_get_sample first tags w wanted :
  devices (meter w) ≠ [] →
  ∃ w1,
    session first tags w = (Ok tt, w1)
    ∧ (∀ i, (default (default_tag (meter w)) <$> (first :: tags)) !! i
            = Some wanted →
         (∀ j, j < i →
            (default (default_tag (meter w)) <$> (first :: tags)) !! j
            ≠ Some wanted) →
         ∃ x w',
           get_sample (length tags + 2) wanted w1 = Some (Ok x, w')
           ∧ sample_tag x = wanted
           ∧ sample_timestamp x
             = perf_counter (i * S (length (devices (meter w))) + ticks w))
    ∧ (wanted ∉ default (default_tag (meter w)) <$> (first :: tags) →
       ∃ w', get_sample (length tags + 2) wanted w1
             = Some (Raise SampleNotFoundError, w')).
Proof.
  intros Hd.
  destruct (session_run first tags w Hd) as (w1 & Hs & Hst & Ht & Hd1 & Hit).
  destruct (get_sample_of_samples _ wanted _ _ _ Hst Hit) as [w' Hget].
  assert (Htags :
    sample_tag <$> samples_of (devices (meter w)) (ticks w1)
       (measurements (devices (meter w)) (default_tag (meter w))
          (first :: tags ++ [Some stop_tag]) (ticks w))
    = default (default_tag (meter w)) <$> (first :: tags)).
  { change (first :: tags ++ [Some stop_tag])
      with ((first :: tags) ++ [Some stop_tag]).
    rewrite measurements_snoc.
    change (measurements ?ds ?dt [?tg] ?t)
      with [mkEnergyState (perf_counter t) (default dt tg)
              (answers get_energy ds (S t)) None].
    by rewrite tags_samples_of, tags_measurements. }
  exists w1. split; [exact Hs|]. split.
  - intros i Hi Hfirst. rewrite <- Htags in Hi, Hfirst.
    apply list_lookup_fmap_Some in Hi as (x & Htag & Hx).
    exists x, w'. rewrite Hget.
    destruct (list_find _ _) as [[k y]|] eqn:Hk.
    + apply list_find_Some in Hk as (Hk & Hy & Hbefore).
      destruct (Nat.lt_trichotomy k i) as [Hlt|[->|Hgt]].
      * destruct (Hfirst k Hlt). by rewrite list_lookup_fmap, Hk, <- Hy.
      * simplify_eq. split; [done|]. split; [done|].
        assert (is_Some ((first :: tags) !! i)) as [tg Htg].
        { apply lookup_lt_is_Some. apply lookup_lt_Some in Hk.
          rewrite length_samples_of, length_measurements in Hk.
          simpl in *. rewrite length_app in Hk. simpl in Hk. lia. }
        assert (Hi1 : (first :: tags ++ [Some stop_tag]) !! i = Some tg).
        { change (first :: tags ++ [Some stop_tag])
            with ((first :: tags) ++ [Some stop_tag]).
          by apply lookup_app_l_Some. }
        destruct (lookup_lt_is_Some_2 (first :: tags ++ [Some stop_tag])
                    (S i)) as [tg' Hi2].
        { apply lookup_lt_Some in Htg. simpl in *. rewrite length_app.
          simpl. lia. }
        erewrite lookup_samples_of in Hk;
          [|by apply lookup_measurements..].
        by injection Hk as <-.
      * by destruct (Hbefore i x Hx Hgt).
    + apply list_find_None in Hk. rewrite Forall_forall in Hk.
      destruct (Hk x); [by eapply list_elem_of_lookup_2|done].
  - intros Hnot. exists w'. rewrite Hget.
    destruct (list_find _ _) as [[k y]|] eqn:Hk; [|done].
    apply list_find_Some in Hk as (Hk & Hy & _).
    destruct Hnot. rewrite <- Htags, <- Hy.
    apply list_elem_of_fmap_2. by eapply list_elem_of_lookup_2.
Qed.

(** ** What the methods never do to a state *)

Lemma lookup_kept_by_record tg w a s :
  heap w !! a = Some s →
  ∃ s', heap (record tg w).2 !! a = Some s'
      ∧ timestamp s' = timestamp s ∧ tag s' = tag s ∧ values s' = values s
      ∧ (next_state s' = next_state s
         ∨ (next_state s = None ∧ _last_state (meter w) = Some a
            ∧ next_state s' = Some (length (heap w)))).
Proof.
  intros Ha.
  destruct (record tg w) as [[[]|e] w'] eqn:Hr; simpl.
  - apply record_ok in Hr as (f & l & sl & Hf & Hl & Hsl & Hn & ->). simpl.
    destruct (decide (a = l)) as [->|Hne].
    + rewrite (lookup_app_l_Some _ _ _ _ Ha) in Hsl. injection Hsl as <-.
      eexists. split.
      { apply list_lookup_insert_eq. rewrite length_app.
        apply lookup_lt_Some in Ha. lia. }
      simpl. repeat split; try done. by right.
    + exists s. rewrite list_lookup_insert_ne by done.
      rewrite (lookup_app_l_Some _ _ _ _ Ha). repeat split; try done.
      by left.
  - apply record_raise in Hr as [_ Hkeep].
    exists s. split; [by apply Hkeep|]. repeat split; try done. by left.
Qed.


(** ** Reachable stores *)

Lemma not_started_guard_aux tg w :
  _first_state (meter w) = None →
  record tg w = (Raise EnergyMeterNotStartedError, w).
Proof. intros Hf. unfold record. run. by rewrite Hf. Qed.

Lemma trace_is_same w w' f ms :
  heap w' = heap w → meter w' = meter w → trace_is w f ms → trace_is w' f ms.
Proof. unfold trace_is. by intros -> ->. Qed.

(** The controller is either not started, or holds a well-linked trace at
    the end of the heap. *)
Lemma reachable_trace w :
  reachable w →
  (_first_state (meter w) = None) ∨ ∃ f ms, trace_is w f ms.
Proof.
  assert (Hrec : ∀ tg w,
    (_first_state (meter w) = None) ∨ (∃ f ms, trace_is w f ms) →
    (_first_state (meter (record tg w).2) = None)
    ∨ ∃ f ms, trace_is (record tg w).2 f ms).
  { intros tg v [Hnone|(f & ms & Htr)].
    - left. by rewrite (not_started_guard_aux tg v Hnone).
    - right. destruct (record_trace tg v f ms Htr) as (v' & Hr & Htr' & _).
      rewrite Hr. by eexists _, _. }
  induction 1 as [ds dt t|tg w Hw IH|tg w Hw IH|w Hw IH
                 |fuel wanted w r w' Hw IH Hg|fuel w r w' Hw IH Hi].
  - by left.
  - right. rewrite start_eq. exists (length (heap w)), [measured tg w].
    repeat split; simpl.
    + done.
    + by apply stored_one.
    + rewrite length_app. simpl. lia.
    + f_equal. lia.
  - by apply Hrec.
  - rewrite stop_is_record. by apply Hrec.
  - apply get_sample_keeps in Hg as [Hh Hm].
    destruct IH as [Hnone|(f & ms & Htr)]; [left; by rewrite Hm|].
    right. exists f, ms. by apply (trace_is_same w).
  - apply iterate_keeps in Hi as [Hh Hm].
    destruct IH as [Hnone|(f & ms & Htr)]; [left; by rewrite Hm|].
    right. exists f, ms. by apply (trace_is_same w).
Qed.

(** X5: on every store that a program can reach from a new meter, [record]
    and [stop] either succeed or, before the first [start], raise
    [EnergyMeterNotStartedError] and write nothing: the controller never
    tries to link a state that already has a successor, and
    [StateIsNotFinalError] never leaves it. *)
Theorem record_and_stop_only_fail_before_start w :
  reachable w →
  (∀ tg, (∃ w', record tg w = (Ok tt, w'))
         ∨ (_first_state (meter w) = None
            ∧ record tg w = (Raise EnergyMeterNotStartedError, w)))
  ∧ ((∃ w', stop w = (Ok tt, w'))
     ∨ (_first_state (meter w) = None
        ∧ stop w = (Raise EnergyMeterNotStartedError, w))).
Proof.
  intros Hw.
  assert (Hrec : ∀ tg, (∃ w', record tg w = (Ok tt, w'))
         ∨ (_first_state (meter w) = None
            ∧ record tg w = (Raise EnergyMeterNotStartedError, w))).
  { intros tg. destruct (reachable_trace w Hw) as [Hnone|(f & ms & Htr)].
    - right. split; [done|]. by apply not_started_guard_aux.
    - left. destruct (record_trace tg w f ms Htr) as (w' & Hr & _).
      by exists w'. }
  split; [exact Hrec|]. rewrite stop_is_record. apply Hrec.
Qed.

(** X6: on every reachable store that is Stopped, with at least one device,
    the iteration ends and yields samples, fewer than there are states, and
    [get_sample] ends with a sample that has the wanted tag or with
    [SampleNotFoundError]: no [NoNextStateException], [AttributeError] or
    [TypeError] comes out of a Stopped controller. *)
Theorem reading_a_stopped_controller_ends w :
  reachable w → is_stopped w = true → devices (meter w) ≠ [] →
  ∃ fuel samples w',
    iterate fuel w = Some (Ok samples, w')
    ∧ length samples < length (heap w)
    ∧ ∀ wanted, ∃ r w'',
        get_sample fuel wanted w = Some (r, w'')
        ∧ (r = Raise SampleNotFoundError
           ∨ ∃ x, r = Ok x ∧ x ∈ samples ∧ sample_tag x = wanted).
Proof.
  intros Hw Hst Hd.
  destruct (reachable_trace w Hw) as [Hnone|(f & ms & Htr)].
  { apply is_stopped_inv in Hst as (f & l & s & Hf & _). congruence. }
  pose proof (iterate_trace w f ms Htr Hst Hd) as Hit.
  eexists _, _, _. split; [exact Hit|]. split.
  { destruct Htr as (Hne & _ & Hlen & _).
    rewrite length_samples_of, Hlen.
    destruct ms; [done|simpl; lia]. }
  intros wanted.
  destruct (get_sample_of_samples _ wanted _ _ _ Hst Hit) as [w'' Hget].
  eexists _, w''. split; [exact Hget|].
  destruct (list_find _ _) as [[k y]|] eqn:Hk; [|by left].
  apply list_find_Some in Hk as (Hk & Hy & _).
  right. exists y. split; [done|]. split; [|done].
  by eapply list_elem_of_lookup_2.
Qed.

(** ** [is_last] *)

(** X7: [is_last()] answers [True] exactly when [add_next_state] would
    accept a successor, and exactly when [compute_duration] would raise
    [NoNextStateException]; once [add_next_state] has succeeded it answers
    [False]. *)
Theorem is_last_tells_the_guards w a s b :
  heap w !! a = Some s →
  (is_last a w = (Ok true, w) ↔ ∃ w', add_next_state a b w = (Ok tt, w'))
  ∧ (is_last a w = (Ok true, w)
     ↔ compute_duration a w = (Raise NoNextStateException, w))
  ∧ (∀ w', add_next_state a b w = (Ok tt, w') →
       is_last a w' = (Ok false, w')).
Proof.
  intros Ha. unfold is_last, add_next_state, compute_duration. run.
  rewrite Ha. destruct (next_state s) as [n|] eqn:Hn; simpl.
  - split; [|split].
    + split; [done|]. by intros [w' ?].
    + split; [done|]. by destruct (heap w !! n).
    + done.
  - split; [|split].
    + split; [by eexists|done].
    + done.
    + intros w' [= <-]. simpl.
      rewrite list_lookup_insert_eq by by eapply lookup_lt_Some. done.
Qed.

(** ** The energy of each domain *)

Lemma lookup_answers {A} (oracle : Device → nat → A) ds t p d :
  ds !! p = Some d → answers oracle ds t !! p = Some (oracle d (t + p)).
Proof.
  revert t p. induction ds as [|d0 ds IH]; intros t p Hp; [done|].
  destruct p as [|p]; simpl.
  - injection Hp as ->. by rewrite Nat.add_0_r.
  - rewrite (IH _ p Hp). do 2 f_equal. lia.
Qed.

Lemma concat_aligned {A B} (Ks : list (list A)) (Ds : list (list B)) :
  Forall2 (λ k d, length k = length d) Ks Ds →
  length (concat Ks) = length (concat Ds)
  ∧ ∀ p q kl dl key v,
      Ks !! p = Some kl → Ds !! p = Some dl →
      kl !! q = Some key → dl !! q = Some v →
      ∃ j, concat Ks !! j = Some key ∧ concat Ds !! j = Some v.
Proof.
  induction 1 as [|k d Ks Ds Hkd HF [IHlen IH]]; [done|]. split.
  - simpl. rewrite !length_app. lia.
  - intros [|p] q kl dl key v Hk Hd Hq Hv; simpl in *.
    + simplify_eq. exists q.
      split; by apply lookup_app_l_Some.
    + destruct (IH p q kl dl key v Hk Hd Hq Hv) as (j & Hj1 & Hj2).
      exists (length k + j). split.
      * by rewrite lookup_app_r, Nat.add_sub' by lia.
      * by rewrite Hkd, lookup_app_r, Nat.add_sub' by lia.
Qed.

Lemma readings_aligned ds t t1 t2 :
  one_reading_per_domain →
  Forall2 (λ k d, length k = length d)
    (answers get_configured_domains ds t)
    (zip_with (zip_with fsub) (answers get_energy ds t1)
                              (answers get_energy ds t2)).
Proof.
  intros Hone. revert t t1 t2.
  induction ds as [|d ds IH]; intros t t1 t2; simpl; constructor.
  - rewrite length_zip_with.
    rewrite (Hone d t1 t), (Hone d t2 t). lia.
  - apply IH.
Qed.

(** The mapping of two measured states: one entry per key string, and with
    distinct key strings each domain gets the difference of its readings. *)
Lemma energy_of_readings ds t t1 t2 :
  one_reading_per_domain →
  (∀ k, is_Some (values_dict
                   (energy_deltas (answers get_energy ds t1)
                                  (answers get_energy ds t2))
                   (domain_keys ds t) !! k)
        ↔ ∃ key, key ∈ domain_keys ds t ∧ str key = k)
  ∧ (NoDup (str <$> domain_keys ds t) →
     ∀ p d q key r r',
       ds !! p = Some d →
       get_configured_domains d (t + p) !! q = Some key →
       get_energy d (t2 + p) !! q = Some r →
       get_energy d (t1 + p) !! q = Some r' →
       values_dict (energy_deltas (answers get_energy ds t1)
                                  (answers get_energy ds t2))
                   (domain_keys ds t) !! str key
       = Some (fsub r' r)).
Proof.
  intros Hone. rewrite energy_deltas_concat. unfold domain_keys.
  destruct (concat_aligned _ _ (readings_aligned ds t t1 t2 Hone))
    as [Hlen Hpos].
  destruct (values_dict_spec
              (concat (zip_with (zip_with fsub) (answers get_energy ds t1)
                         (answers get_energy ds t2)))
              (concat (answers get_configured_domains ds t)))
    as (Hat & Hdom & _).
  split.
  - intros k. rewrite Hdom. split.
    + intros (j & key & _ & Hj & Hk). exists key. split; [|done].
      by eapply list_elem_of_lookup_2.
    + intros (key & [j Hj]%list_elem_of_lookup & Hk). exists j, key.
      split; [|done]. rewrite <- Hlen. by eapply lookup_lt_Some.
  - intros Hnd p d q key r r' Hp Hkey Hr Hr'.
    destruct (Hpos p q (get_configured_domains d (t + p))
                (zip_with fsub (get_energy d (t1 + p)) (get_energy d (t2 + p)))
                key (fsub r' r)) as (j & Hj1 & Hj2).
    + by apply lookup_answers.
    + apply lookup_zip_with_Some.
      eexists _, _. split; [done|]. split; by apply lookup_answers.
    + done.
    + apply lookup_zip_with_Some. by exists r', r.
    + apply (Hat j key); [done..|].
      intros j' key' Hlt _ Hj' Heq.
      assert (j = j'); [|lia].
      apply (NoDup_lookup _ j j' (str key) Hnd).
      * by rewrite list_lookup_fmap, Hj1.
      * rewrite list_lookup_fmap, Hj'. simpl. by rewrite Heq.
Qed.

(** X8: with devices that give one reading per configured domain, every
    sample of a session has an entry for exactly the strings of the keys
    asked when it is yielded; and when these strings are pairwise distinct,
    the entry of a domain is the reading of that domain at the next call
    minus its reading at the sample's own call. *)
Theorem session_energy_per_domain first tags w :
  one_reading_per_domain →
  devices (meter w) ≠ [] →
  ∃ w1 samples w2,
    session first tags w = (Ok tt, w1)
    ∧ iterate (length tags + 2) w1 = Some (Ok samples, w2)
    ∧ ∀ i x, samples !! i = Some x →
        (∀ k, is_Some (energy x !! k)
              ↔ ∃ key,
                  key ∈ domain_keys (devices (meter w))
                          (i * length (devices (meter w)) + ticks w1)
                  ∧ str key = k)
        ∧ (NoDup (str <$> domain_keys (devices (meter w))
                            (i * length (devices (meter w)) + ticks w1)) →
           ∀ p d q key r r',
             devices (meter w) !! p = Some d →
             get_configured_domains d
               (i * length (devices (meter w)) + ticks w1 + p) !! q
             = Some key →
             get_energy d
               (S (i * S (length (devices (meter w))) + ticks w) + p) !! q
             = Some r →
             get_energy d
               (S (S i * S (length (devices (meter w))) + ticks w) + p) !! q
             = Some r' →
             energy x !! str key = Some (fsub r' r)).
Proof.
  intros Hone Hd.
  destruct (session_run first tags w Hd) as (w1 & Hs & Hst & Ht & Hd1 & Hit).
  eexists w1, _, _. split; [exact Hs|]. split; [exact Hit|].
  intros i x Hx.
  assert (Hlt : S i < length (first :: tags ++ [Some stop_tag])).
  { apply lookup_lt_Some in Hx.
    rewrite length_samples_of, length_measurements in Hx. lia. }
  destruct (lookup_lt_is_Some_2 (first :: tags ++ [Some stop_tag]) i)
    as [tg Hi1]; [lia|].
  destruct (lookup_lt_is_Some_2 (first :: tags ++ [Some stop_tag]) (S i))
    as [tg' Hi2]; [lia|].
  erewrite lookup_samples_of in Hx; [|by apply lookup_measurements..].
  injection Hx as <-. unfold sample_between. simpl.
  by apply energy_of_readings.
Qed.

(** ** Stopping twice *)

Lemma samples_of_stable ds t t' ms :
  stable_domains → samples_of ds t ms = samples_of ds t' ms.
Proof.
  intros Hst. revert t t'. induction ms as [|m ms IH]; intros t t'; [done|].
  destruct ms as [|m' ms]; [done|].
  change (samples_of ds t (m :: m' :: ms))
    with (sample_between m m' (domain_keys ds t)
          :: samples_of ds (length ds + t) (m' :: ms)).
  change (samples_of ds t' (m :: m' :: ms))
    with (sample_between m m' (domain_keys ds t')
          :: samples_of ds (length ds + t') (m' :: ms)).
  by rewrite (domain_keys_stable ds t t'), (IH (length ds + t) (length ds + t')).
Qed.

Lemma samples_of_snoc ds t ms m0 m :
  last ms = Some m0 →
  ∃ t', samples_of ds t (ms ++ [m])
        = samples_of ds t ms ++ [sample_between m0 m (domain_keys ds t')].
Proof.
  revert t. induction ms as [|m1 ms IH]; intros t Hl; [done|].
  destruct ms as [|m2 ms].
  - injection Hl as ->. by exists t.
  - destruct (IH (length ds + t) Hl) as [t' Heq]. exists t'.
    change (samples_of ds t ((m1 :: m2 :: ms) ++ [m]))
      with (sample_between m1 m2 (domain_keys ds t)
            :: samples_of ds (length ds + t) ((m2 :: ms) ++ [m])).
    by rewrite Heq.
Qed.

(** X9: on a reachable Stopped store with at least one device and stable
    domain lists, a second [stop()] after an iteration succeeds, and the
    next iteration yields the same samples followed by one more: it has the
    tag ["__stop__"] and the timestamp of the state that was last, and its
    duration runs from there to the clock reading of the second [stop()]. *)
Theorem second_stop_adds_one_sample w :
  reachable w → is_stopped w = true → devices (meter w) ≠ [] →
  stable_domains →
  ∃ fuel samples w1 w2 x w3 l s,
    iterate fuel w = Some (Ok samples, w1)
    ∧ stop w1 = (Ok tt, w2)
    ∧ iterate (S fuel) w2 = Some (Ok (samples ++ [x]), w3)
    ∧ _last_state (meter w) = Some l ∧ heap w !! l = Some s
    ∧ sample_tag x = stop_tag
    ∧ sample_timestamp x = timestamp s
    ∧ duration x = fsub (perf_counter (ticks w1)) (timestamp s).
Proof.
  intros Hw Hst Hd Hstable.
  destruct (reachable_trace w Hw) as [Hnone|(f & ms & Htr)].
  { apply is_stopped_inv in Hst as (f & l & s & Hf & _). congruence. }
  pose proof (iterate_trace w f ms Htr Hst Hd) as Hit.
  set (w1 := advance ((length ms - 1) * length (devices (meter w))) w) in *.
  assert (Htr1 : trace_is w1 f ms) by by apply (trace_is_same w).
  destruct (record_trace (Some stop_tag) w1 f ms Htr1)
    as (w2 & Hr & Htr2 & Ht2 & Hd2 & _).
  assert (Hne : ms ≠ []) by apply Htr.
  destruct (last ms) as [m0|] eqn:Hm0.
  2:{ apply last_None in Hm0. done. }
  assert (Htag0 : tag m0 = stop_tag)
    by by apply (trace_stopped w f ms m0 Htr Hm0).
  assert (Hst2 : is_stopped w2 = true).
  { apply (proj2 (trace_stopped w2 f _ _ Htr2 (last_snoc _ _))). done. }
  assert (Hd2' : devices (meter w2) ≠ []) by (rewrite Hd2; exact Hd).
  pose proof (iterate_trace w2 f _ Htr2 Hst2 Hd2') as Hit2.
  rewrite length_app in Hit2. simpl length in Hit2.
  replace (length ms + 1) with (S (length ms)) in Hit2 by lia.
  destruct (samples_of_snoc (devices (meter w2)) (ticks w2) ms m0
              (measured (Some stop_tag) w1) Hm0) as [t' Hsnoc].
  rewrite Hsnoc in Hit2.
  rewrite (samples_of_stable _ (ticks w2) (ticks w)) in Hit2 by done.
  rewrite Hd2 in Hit2.
  change (devices (meter w1)) with (devices (meter w)) in Hit2.
  destruct Htr as (_ & Hstored & _ & _ & Hl).
  assert (Hpos : 0 < length ms) by (destruct ms; [done|simpl; lia]).
  rewrite last_lookup, <- Nat.sub_1_r in Hm0.
  destruct (Hstored _ m0 Hm0) as (s & Hs & Hts & _).
  replace (f + (length ms - 1)) with (f + length ms - 1) in Hs by lia.
  eexists (length ms), _, w1, w2, _, _, _, s.
  split; [exact Hit|]. split; [by rewrite stop_is_record|].
  split; [exact Hit2|]. split; [exact Hl|]. split; [exact Hs|].
  split; [exact Htag0|]. simpl. by rewrite Hts.
Qed.

End Properties.

(** * The properties at work on the concrete platforms *)

Import Scenario.

(** The stores of [Scenario] are what the methods leave. *)
Lemma scenario_stores :
  session (Some "a") [Some "b"] not_started = (Ok tt, trace_ab)
  ∧ session None [] two_devices = (Ok tt, trace_two_devices)
  ∧ session None [] no_device = (Ok tt, trace_no_device)
  ∧ start None not_started = (Ok tt, started)
  ∧ record (Some "__stop__") started = (Ok tt, recorded_stop_tag)
  ∧ record (Some "x") trace_ab = (Ok tt, recorded_after_stop).
Proof. repeat split; vm_compute; reflexivity. Qed.

(** ** [EnergyState] *)

(** In [trace_ab] the first state lasts two ticks of the clock, and the stop
    state, which has no successor, has neither duration nor energy. *)
Lemma compute_duration_witness :
  heap trace_ab !! 0 = Some (mkEnergyState 0%Z "a" [[1%Z]] (Some 1))
  ∧ compute_duration 0 trace_ab = (Ok 2%Z, trace_ab)
  ∧ compute_duration 2 trace_ab = (Raise NoNextStateException, trace_ab)
  ∧ compute_energy 2 ["D"] trace_ab = (Raise NoNextStateException, trace_ab).
Proof.
  split; [reflexivity|].
  destruct (compute_duration_and_terminal_guard trace_ab 0
              (mkEnergyState (P := lab) 0%Z "a" [[1%Z]] (Some 1)) eq_refl)
    as [Hnext _].
  destruct (compute_duration_and_terminal_guard trace_ab 2
              (mkEnergyState (P := lab) 4%Z "__stop__" [[5%Z]] None) eq_refl)
    as [_ Hlast].
  destruct (Hlast eq_refl) as [Hduration Henergy].
  split.
  - exact (Hnext 1 (mkEnergyState (P := lab) 2%Z "b" [[3%Z]] (Some 2)) eq_refl eq_refl).
  - split; [exact Hduration | exact (Henergy ["D"])].
Defined.

(** The stop state of [trace_ab] accepts a successor once. *)
Lemma add_next_state_witness :
  next_state <$> heap trace_ab !! 2 = Some None
  ∧ ∃ w', add_next_state 2 0 trace_ab = (Ok tt, w')
        ∧ next_state <$> heap w' !! 2 = Some (Some 0)
        ∧ add_next_state 2 1 w' = (Raise StateIsNotFinalError, w').
Proof.
  split; [reflexivity|].
  destruct (add_next_state_once trace_ab 2
              (mkEnergyState (P := lab) 4%Z "__stop__" [[5%Z]] None) 0 eq_refl eq_refl)
    as (w' & Hfirst & Hset & Hagain & _).
  exists w'. split; [exact Hfirst|]. split.
  - rewrite Hset. reflexivity.
  - exact (Hagain 1).
Defined.

(** ** The guards *)

Lemma not_started_witness :
  _first_state (meter not_started) = None
  ∧ record (Some "a") not_started
    = (Raise EnergyMeterNotStartedError, not_started)
  ∧ stop not_started = (Raise EnergyMeterNotStartedError, not_started)
  ∧ get_sample 3 "a" not_started
    = Some (Raise EnergyMeterNotStartedError, not_started)
  ∧ iterate 3 not_started
    = Some (Raise EnergyMeterNotStartedError, not_started).
Proof.
  split; [reflexivity|].
  destruct (not_started_guard not_started eq_refl)
    as (Hrecord & Hstop & Hget & _ & Hiterate).
  split; [exact (Hrecord (Some "a"))|]. split; [exact Hstop|].
  split; [exact (Hget 3 "a") | exact (Hiterate 3)].
Defined.

(** After [start()] with the default tag [""], nothing can be read. *)
Lemma not_stopped_witness :
  start None not_started = (Ok tt, started)
  ∧ get_sample 3 "" started
    = Some (Raise EnergyMeterNotStoppedError, started)
  ∧ iterate 3 started = Some (Raise EnergyMeterNotStoppedError, started).
Proof.
  assert (Hstart : start None not_started = (Ok tt, started))
    by (vm_compute; reflexivity).
  assert (Htag : default (default_tag (meter not_started)) None ≠ stop_tag)
    by (vm_compute; discriminate).
  split; [exact Hstart|].
  destruct (not_stopped_guard None not_started started
              (or_introl Hstart) Htag) as (_ & Hget & Hiterate).
  split; [exact (Hget 3 "") | exact (Hiterate 3)].
Defined.

(** C3, as stated, fails: after [start()] and [record("__stop__")], with no
    call to [stop()], [get_sample] returns a sample and the iteration yields
    one. *)
Lemma record_with_stop_tag_reads_as_stopped :
  start None not_started = (Ok tt, started)
  ∧ record (Some "__stop__") started = (Ok tt, recorded_stop_tag)
  ∧ (∃ x w', get_sample 3 "" recorded_stop_tag = Some (Ok x, w'))
  ∧ (∃ x w', iterate 3 recorded_stop_tag = Some (Ok [x], w')).
Proof.
  split; [vm_compute; reflexivity|]. split; [vm_compute; reflexivity|].
  split; eexists _, _; vm_compute; reflexivity.
Qed.

(** [trace_ab] is Stopped and stays so under [stop()], [get_sample("b")]
    and the iteration. *)
Lemma stopped_witness :
  is_stopped trace_ab = true
  ∧ is_stopped (stop trace_ab).2 = true
  ∧ is_stopped (left_by (get_sample 3 "b" trace_ab) trace_ab) = true
  ∧ is_stopped (left_by (iterate 3 trace_ab) trace_ab) = true.
Proof.
  split; [reflexivity|].
  destruct (stopped_until_new_tag trace_ab eq_refl)
    as (Hstop & Hget & Hiterate & _ & _ & _).
  split; [exact Hstop|]. split.
  - destruct (get_sample 3 "b" trace_ab) as [[r w']|] eqn:Hg;
      [|reflexivity].
    exact (proj2 (proj2 (Hget 3 "b" r w' Hg))).
  - destruct (iterate 3 trace_ab) as [[r w']|] eqn:Hi; [|reflexivity].
    exact (proj2 (proj2 (Hiterate 3 r w' Hi))).
Defined.

(** C4, as stated, fails: [record("x")] on the Stopped [trace_ab] succeeds
    and leaves a controller that is not Stopped; its iteration is refused. *)
Lemma record_leaves_stopped :
  is_stopped trace_ab = true
  ∧ record (Some "x") trace_ab = (Ok tt, recorded_after_stop)
  ∧ is_stopped recorded_after_stop = false
  ∧ iterate 3 recorded_after_stop
    = Some (Raise EnergyMeterNotStoppedError, recorded_after_stop).
Proof. repeat split; vm_compute; reflexivity. Qed.

(** ** Reading a Stopped trace *)

Lemma lab_stable : stable_domains (P := lab).
Proof. intros d t t'. reflexivity. Qed.

Lemma iterate_trace_ab :
  iterate 3 trace_ab = Some (Ok [sample_a; sample_b], advance 2 trace_ab).
Proof. vm_compute. reflexivity. Qed.


(** [trace_ab] iterated twice gives its two samples twice. *)
Lemma iteration_repeatable_witness :
  is_stopped trace_ab = true
  ∧ iterate 3 trace_ab = Some (Ok [sample_a; sample_b], advance 2 trace_ab)
  ∧ ∃ w'', iterate 3 (advance 2 trace_ab)
           = Some (Ok [sample_a; sample_b], w'').
Proof.
  assert (Hst : is_stopped trace_ab = true) by reflexivity.
  assert (Hit : iterate 3 trace_ab
                = Some (Ok [sample_a; sample_b], advance 2 trace_ab))
    by (vm_compute; reflexivity).
  split; [exact Hst|]. split; [exact Hit|].
  exact (proj2 (proj2 (iteration_repeatable 3 trace_ab _ _ lab_stable
                         Hst Hit))).
Defined.

(** C10, as stated, fails.  Between two iterations of [trace_ab] a second
    [stop()], which is no [start()], adds a state: the second iteration
    yields three samples where the first yielded two.  And on the device
    reconfigured during the first iteration, two iterations in a row key
    their samples differently. *)
Lemma iteration_after_second_stop :
  iterate 4 trace_ab = Some (Ok [sample_a; sample_b], advance 2 trace_ab)
  ∧ stop (advance 2 trace_ab) = (Ok tt, stopped_again)
  ∧ iterate 4 stopped_again
    = Some (Ok [sample_a; sample_b; sample_stop], advance 3 stopped_again)
  ∧ fst <$> iterate (P := reconfigured) 3 trace_reconfigured
    = Some (Ok [mkEnergySample (P := reconfigured) 0%Z "a" 2%Z
                  {["old" := 2%Z]};
                mkEnergySample (P := reconfigured) 2%Z "b" 2%Z
                  {["new" := 2%Z]}])
  ∧ fst <$> iterate (P := reconfigured) 3
              (left_by (iterate (P := reconfigured) 3 trace_reconfigured)
                       trace_reconfigured)
    = Some (Ok [mkEnergySample (P := reconfigured) 0%Z "a" 2%Z
                  {["new" := 2%Z]};
                mkEnergySample (P := reconfigured) 2%Z "b" 2%Z
                  {["new" := 2%Z]}]).
Proof. repeat split; vm_compute; reflexivity. Qed.

(** ** The domain keys *)



(** ** The energy mapping *)

(** The one sample of [trace_two_devices]. *)
Lemma energy_mapping_witness :
  is_stopped trace_two_devices = true
  ∧ iterate 3 trace_two_devices
    = Some (Ok [sample_two_devices], advance 2 trace_two_devices)
  ∧ ∃ a s b s' t,
      heap trace_two_devices !! a = Some s ∧ next_state s = Some b
      ∧ heap trace_two_devices !! b = Some s'
      ∧ sample_timestamp sample_two_devices = timestamp s
      ∧ sample_tag sample_two_devices = tag s
      ∧ let deltas := flat_deltas s s' in
        let keys := domain_keys (devices (meter trace_two_devices)) t in
        (∀ j key v, keys !! j = Some key → deltas !! j = Some v →
           (∀ j' key', j < j' → j' < length deltas →
              keys !! j' = Some key' → str key' ≠ str key) →
           energy sample_two_devices !! str key = Some v)
        ∧ (∀ k, is_Some (energy sample_two_devices !! k)
                ↔ ∃ j key, j < length deltas ∧ keys !! j = Some key
                           ∧ str key = k)
        ∧ (length deltas = length keys →
           ∀ key, key ∈ keys →
             is_Some (energy sample_two_devices !! str key)).
Proof.
  assert (Hst : is_stopped trace_two_devices = true) by reflexivity.
  assert (Hit : iterate 3 trace_two_devices
                = Some (Ok [sample_two_devices], advance 2 trace_two_devices))
    by (vm_compute; reflexivity).
  split; [exact Hst|]. split; [exact Hit|].
  exact (energy_mapping_of_each_sample 3 trace_two_devices _ _ 0
           sample_two_devices Hst Hit eq_refl).
Defined.

(** C1, as stated, fails when two keys have the same string.  In
    [trace_two_devices] the deltas are [3] for the first device and [6] for
    the second, the keys are ["D"] twice, and the lengths match; the
    mapping sends ["D"], the key at position 0, to [6], the delta at
    position 1. *)
Lemma repeated_key_keeps_last_delta :
  ∃ s s',
    heap trace_two_devices !! 0 = Some s ∧ next_state s = Some 1
    ∧ heap trace_two_devices !! 1 = Some s'
    ∧ iterate 3 trace_two_devices
      = Some (Ok [sample_two_devices], advance 2 trace_two_devices)
    ∧ flat_deltas s s' = [3%Z; 6%Z]
    ∧ domain_keys (devices (meter trace_two_devices))
                  (ticks trace_two_devices) = ["D"; "D"]
    ∧ energy sample_two_devices !! "D" = Some 6%Z
    ∧ ¬ (∀ j key v,
           domain_keys (devices (meter trace_two_devices))
                       (ticks trace_two_devices) !! j = Some key →
           flat_deltas s s' !! j = Some v →
           energy sample_two_devices !! str key = Some v).
Proof.
  exists (mkEnergyState (P := lab) 0%Z "" [[1%Z]; [4%Z]] (Some 1)),
         (mkEnergyState (P := lab) 3%Z "__stop__" [[4%Z]; [10%Z]] None).
  split; [reflexivity|]. split; [reflexivity|]. split; [reflexivity|].
  split; [vm_compute; reflexivity|]. split; [reflexivity|].
  split; [reflexivity|]. split; [vm_compute; reflexivity|].
  intros H. specialize (H 0 "D" 3%Z eq_refl eq_refl).
  vm_compute in H. discriminate H.
Qed.

(** ** The number of samples *)

(** C2: on a meter without devices, [start()] and [stop()] succeed and leave
    a Stopped trace of two states, whose iteration yields no sample: the
    first [__next__] raises [TypeError], from [reduce] on an empty list.
    With at least one device the count is [N + 1]
    ([session_sample_count]). *)
Theorem iteration_without_device :
  session None [] no_device = (Ok tt, trace_no_device)
  ∧ is_stopped trace_no_device = true
  ∧ length (heap trace_no_device) = 2
  ∧ iterate 3 trace_no_device = Some (Raise TypeError, trace_no_device).
Proof. repeat split; vm_compute; reflexivity. Qed.

(** ** Whole traces on the concrete platform *)

Lemma lab_one_reading : one_reading_per_domain (P := lab).
Proof. intros d t t'. reflexivity. Qed.

Lemma trace_ab_reachable : reachable trace_ab.
Proof.
  assert (H0 : reachable not_started) by apply (reach_new (P := lab) [0] "" 0).
  assert (H1 : started_a = (start (Some "a") not_started).2)
    by (vm_compute; reflexivity).
  assert (H2 : recorded_ab = (record (Some "b") started_a).2)
    by (vm_compute; reflexivity).
  assert (H3 : trace_ab = (stop recorded_ab).2)
    by (vm_compute; reflexivity).
  rewrite H3. apply reach_stop. rewrite H2. apply reach_record.
  rewrite H1. by apply reach_start.
Qed.

(** The session that leaves [trace_ab] is iterated into two samples. *)
Lemma session_samples_witness :
  devices (meter not_started) ≠ []
  ∧ ∃ w1 samples w2,
      session (Some "a") [Some "b"] not_started = (Ok tt, w1)
      ∧ iterate 3 w1 = Some (Ok samples, w2)
      ∧ length samples = 2.
Proof.
  assert (Hd : devices (meter not_started) ≠ []) by discriminate.
  split; [exact Hd|].
  destruct (session_samples (Some "a") [Some "b"] not_started Hd)
    as (w1 & samples & w2 & Hs & Hit & Hlen & _).
  exists w1, samples, w2. split; [exact Hs|]. split; [exact Hit|exact Hlen].
Defined.

Lemma session_sample_tags_witness :
  ∃ w1 samples w2,
    session (Some "a") [None; Some "b"] not_started = (Ok tt, w1)
    ∧ iterate 4 w1 = Some (Ok samples, w2)
    ∧ sample_tag <$> samples = ["a"; ""; "b"].
Proof.
  assert (Hd : devices (meter not_started) ≠ []) by discriminate.
  exact (session_sample_tags (Some "a") [None; Some "b"] not_started Hd).
Defined.

(** The sample tagged ["b"] is the one of the second call, made when the
    clock was at 2; no sample is tagged ["__stop__"]. *)
Lemma session_get_sample_witness :
  ∃ w1,
    session (Some "a") [Some "b"] not_started = (Ok tt, w1)
    ∧ (∃ x w', get_sample 3 "b" w1 = Some (Ok x, w')
             ∧ sample_tag x = "b" ∧ sample_timestamp x = 2%Z)
    ∧ ∃ w', get_sample 3 "__stop__" w1
            = Some (Raise SampleNotFoundError, w').
Proof.
  assert (Hd : devices (meter not_started) ≠ []) by discriminate.
  destruct (session_get_sample (Some "a") [Some "b"] not_started "b" Hd)
    as (w1 & Hs & Hfound & _).
  destruct (session_get_sample (Some "a") [Some "b"] not_started "__stop__" Hd)
    as (w1' & Hs' & _ & Hmissing).
  assert (w1' = w1) as -> by congruence.
  exists w1. split; [exact Hs|]. split.
  - apply (Hfound 1 eq_refl). intros [|j] Hj; [discriminate|lia].
  - apply Hmissing. intros Hin. apply list_elem_of_In in Hin. simpl in Hin.
    destruct Hin as [?|[?|[]]]; discriminate.
Defined.


Lemma record_and_stop_witness :
  reachable trace_ab
  ∧ (∃ w', record (Some "x") trace_ab = (Ok tt, w'))
  ∧ ∃ w', stop trace_ab = (Ok tt, w').
Proof.
  split; [exact trace_ab_reachable|].
  destruct (record_and_stop_only_fail_before_start trace_ab
              trace_ab_reachable) as [Hrecord Hstop].
  split.
  - destruct (Hrecord (Some "x")) as [H|[Hnone _]]; [exact H|discriminate].
  - destruct Hstop as [H|[Hnone _]]; [exact H|discriminate].
Defined.

Lemma reading_ends_witness :
  ∃ fuel samples w',
    iterate fuel trace_ab = Some (Ok samples, w') ∧ length samples < 3.
Proof.
  assert (Hd : devices (meter trace_ab) ≠ []) by discriminate.
  destruct (reading_a_stopped_controller_ends trace_ab trace_ab_reachable
              eq_refl Hd) as (fuel & samples & w' & Hit & Hlen & _).
  by exists fuel, samples, w'.
Defined.

(** In [trace_ab] the stop state is last, the first state is not. *)
Lemma is_last_witness :
  is_last 2 trace_ab = (Ok true, trace_ab)
  ∧ (∃ w', add_next_state 2 0 trace_ab = (Ok tt, w'))
  ∧ compute_duration 2 trace_ab = (Raise NoNextStateException, trace_ab)
  ∧ is_last 0 trace_ab = (Ok false, trace_ab).
Proof.
  destruct (is_last_tells_the_guards trace_ab 2
              (mkEnergyState (P := lab) 4%Z "__stop__" [[5%Z]] None) 0
              eq_refl) as (Hadd & Hduration & _).
  assert (Hlast : is_last 2 trace_ab = (Ok true, trace_ab)) by reflexivity.
  split; [exact Hlast|]. split; [exact (proj1 Hadd Hlast)|].
  split; [exact (proj1 Hduration Hlast)|reflexivity].
Defined.

(** The domain ["D"] of the first sample of [trace_ab]: read 1 at [start],
    3 at [record]. *)
Lemma session_energy_witness :
  one_reading_per_domain (P := lab)
  ∧ devices (meter not_started) ≠ []
  ∧ energy sample_a !! "D" = Some (3 - 1)%Z.
Proof.
  assert (Hd : devices (meter not_started) ≠ []) by discriminate.
  split; [exact lab_one_reading|]. split; [exact Hd|].
  destruct (session_energy_per_domain (Some "a") [Some "b"] not_started
              lab_one_reading Hd)
    as (w1 & samples & w2 & Hs & Hit & Hsamples).
  assert (Hs0 : session (Some "a") [Some "b"] not_started = (Ok tt, trace_ab))
    by (vm_compute; reflexivity).
  assert (w1 = trace_ab) as -> by congruence.
  assert (Hit0 : iterate 3 trace_ab
                 = Some (Ok [sample_a; sample_b], advance 2 trace_ab))
    by (vm_compute; reflexivity).
  assert (samples = [sample_a; sample_b]) as ->.
  { change (length [Some "b"] + 2) with 3 in Hit. congruence. }
  destruct (Hsamples 0 sample_a eq_refl) as [_ Hvalue].
  apply (Hvalue (NoDup_singleton _) 0 0 0 "D" 1%Z 3%Z); reflexivity.
Defined.

(** After its iteration and a second [stop()], [trace_ab] yields a third
    sample, tagged ["__stop__"]. *)
Lemma second_stop_witness :
  ∃ fuel samples w1 w2 x w3,
    iterate fuel trace_ab = Some (Ok samples, w1)
    ∧ stop w1 = (Ok tt, w2)
    ∧ iterate (S fuel) w2 = Some (Ok (samples ++ [x]), w3)
    ∧ sample_tag x = "__stop__"
    ∧ sample_timestamp x = 4%Z.
Proof.
  assert (Hd : devices (meter trace_ab) ≠ []) by discriminate.
  destruct (second_stop_adds_one_sample trace_ab trace_ab_reachable
              eq_refl Hd lab_stable)
    as (fuel & samples & w1 & w2 & x & w3 & l & s
        & Hit & Hstop & Hit2 & Hl & Hs & Htag & Hts & _).
  exists fuel, samples, w1, w2, x, w3.
  split; [exact Hit|]. split; [exact Hstop|]. split; [exact Hit2|].
  split; [exact Htag|].
  injection Hl as <-. injection Hs as <-. exact Hts.
Defined.
